(** * APB register access: a shallow embedding of [apbaccess.py]

    The Python class [APB] writes an initialisation stream for a
    memory-mapped accelerator, either as a [.mem] image (block mode) or as
    C statements (top mode).  Its methods mutate the object, append text to
    a file object, print diagnostics and may raise.  The embedding keeps
    all of that explicit:

    - Python integers are [Z]; [&], [|], [<<], [>>], [//] and [%] are
      [Z.land], [Z.lor], [Z.shiftl], [Z.shiftr], [Z.div] and [Z.modulo],
      which agree with Python on negative operands;
    - the object is a record [APB]; the list behind [self.mem] lives in a
      store of list objects and the record only holds its reference, so
      that the reference handed out by [get_mem] aliases it;
    - everything the process emits is an ordered log of [event]s;
    - a method is a function [machine -> result * machine]: exceptions are
      results, and the machine reached when the exception was raised is
      kept. *)

From Stdlib Require Import ZArith String Ascii HexadecimalString DecimalString Lia.
From stdpp Require Import gmap strings list.

Open Scope Z_scope.

(** ** The memory map

    [apbaccess.py] reads its constants from the module [tornadocnn], which
    is not part of the sources at hand.  The constants are therefore a
    parameter of the development: a record with one field per name the
    code reads. *)
Record tornadocnn := {
  C_GROUP_OFFS : Z;
  P_NUMGROUPS : Z;
  C_CNN_BASE : Z;
  C_CNN : Z;
  MAX_LAYERS : Z;
  C_BRAM_BASE : Z;
  C_TRAM_BASE : Z;
  TRAM_SIZE : Z;
  C_MRAM_BASE : Z;
  P_NUMPRO : Z;
  MASK_WIDTH : Z;
  MAX_CHANNELS : Z
}.

(** ** Python values and formatting *)

(** Identity of a file object and of a list object. *)
Abbreviation handle := nat (only parsing).
Abbreviation loc := nat (only parsing).

Definition nl : string := String (ascii_of_nat 10) EmptyString.

Fixpoint zeros (n : nat) : string :=
  match n with
  | O => EmptyString
  | S n' => String "0"%char (zeros n')
  end.

(** Sign-aware zero padding, as the [0] flag of a format spec does it: the
    sign comes first and counts towards the width. *)
Definition zfill (width : nat) (z : Z) (digits : string) : string :=
  let sign := if z <? 0 then "-"%string else EmptyString in
  sign +:+ zeros (width - String.length sign - String.length digits) +:+ digits.

(** [f'{z:0<width>x}'] *)
Definition format_x (width : nat) (z : Z) : string :=
  zfill width z (HexadecimalString.NilZero.string_of_uint (N.to_hex_uint (Z.abs_N z))).

(** [f'{z:0<width>}'] *)
Definition format_d (width : nat) (z : Z) : string :=
  zfill width z (DecimalString.NilZero.string_of_uint (N.to_uint (Z.abs_N z))).

(** [f'{z}'] *)
Definition str (z : Z) : string := format_d 0 z.

(** [l * n] on a list: a count below one gives the empty list. *)
Definition list_mul {A} (l : list A) (n : Z) : list A :=
  concat (replicate (Z.to_nat n) l).

(** Index normalisation of [l[i]]: [-len <= i < 0] counts from the end,
    anything outside [-len <= i < len] is an [IndexError]. *)
Definition py_index (len i : Z) : option nat :=
  if (0 <=? i) && (i <? len) then Some (Z.to_nat i)
  else if (- len <=? i) && (i <? 0) then Some (Z.to_nat (len + i))
  else None.

Definition list_getitem {A} (l : list A) (i : Z) : option A :=
  match py_index (Z.of_nat (length l)) i with
  | Some n => l !! n
  | None => None
  end.

Definition list_setitem {A} (l : list A) (i : Z) (x : A) : option (list A) :=
  match py_index (Z.of_nat (length l)) i with
  | Some n => Some (<[n := x]> l)
  | None => None
  end.

(** ** Machine state *)

Inductive exn :=
| AssertionError
| IndexError
| ZeroDivisionError
| ValueError
| SystemExit (status : Z).

Inductive result (A : Type) :=
| Ok (a : A)
| Raise (e : exn).
Arguments Ok {A} a.
Arguments Raise {A} e.

(** What the process emits: [f.write(s)] on a file object, and [print(s)]
    (the line, without the newline [print] adds). *)
Inductive event :=
| FileWrite (f : handle) (s : string)
| Print (s : string).

(** The two implementations the constructor binds [self.write] and
    [self.verify] to. *)
Inductive backend := Block | Top.

Record APB := mkAPB {
  memfile : handle;
  foffs : Z;
  apb_base : Z;
  verify_writes : bool;
  no_error_stop : bool;
  data : Z;
  num : Z;
  data_offs : Z;
  mem : loc;
  write_impl : backend;
  verify_impl : backend
}.

Record world := mkWorld {
  heap : gmap loc (list bool);
  out : list event
}.

Record machine := mkMachine {
  self : APB;
  env : world
}.

Definition set_memfile_field (f : handle) (s : APB) : APB :=
  mkAPB f (foffs s) (apb_base s) (verify_writes s) (no_error_stop s)
        (data s) (num s) (data_offs s) (mem s) (write_impl s) (verify_impl s).

Definition set_foffs (v : Z) (s : APB) : APB :=
  mkAPB (memfile s) v (apb_base s) (verify_writes s) (no_error_stop s)
        (data s) (num s) (data_offs s) (mem s) (write_impl s) (verify_impl s).

Definition set_data (v : Z) (s : APB) : APB :=
  mkAPB (memfile s) (foffs s) (apb_base s) (verify_writes s) (no_error_stop s)
        v (num s) (data_offs s) (mem s) (write_impl s) (verify_impl s).

Definition set_num (v : Z) (s : APB) : APB :=
  mkAPB (memfile s) (foffs s) (apb_base s) (verify_writes s) (no_error_stop s)
        (data s) v (data_offs s) (mem s) (write_impl s) (verify_impl s).

Definition set_data_offs (v : Z) (s : APB) : APB :=
  mkAPB (memfile s) (foffs s) (apb_base s) (verify_writes s) (no_error_stop s)
        (data s) (num s) v (mem s) (write_impl s) (verify_impl s).

(** The list object a reference points to.  Every reference the class
    holds was allocated by its constructor, so the default is never
    reached from there. *)
Definition deref (h : gmap loc (list bool)) (l : loc) : list bool :=
  default [] (h !! l).

(** ** The monad of methods *)

Definition M (A : Type) : Type := machine -> result A * machine.

Definition ret {A} (a : A) : M A := fun m => (Ok a, m).

Definition bind {A B} (c : M A) (k : A -> M B) : M B :=
  fun m =>
    match c m with
    | (Ok a, m') => k a m'
    | (Raise e, m') => (Raise e, m')
    end.

(** The notations [x ← c; k] and [c;; k] are those of stdpp's [MBind]. *)
#[global] Instance M_ret : MRet M := @ret.
#[global] Instance M_bind : MBind M := fun A B k c => bind c k.

Definition raise {A} (e : exn) : M A := fun m => (Raise e, m).

Definition get_self : M APB := fun m => (Ok (self m), m).

Definition modify_self (f : APB -> APB) : M unit :=
  fun m => (Ok tt, mkMachine (f (self m)) (env m)).

Definition emit (e : event) : M unit :=
  fun m => (Ok tt, mkMachine (self m) (mkWorld (heap (env m)) (out (env m) ++ [e]))).

(** [assert b] *)
Definition assert_ (b : bool) : M unit :=
  if b then ret tt else raise AssertionError.

(** [self.memfile.write(s)] *)
Definition memfile_write (s : string) : M unit :=
  f ← get_self; emit (FileWrite (memfile f) s).

(** [print(s)] *)
Definition print (s : string) : M unit := emit (Print s).

(** [sys.exit(status)] *)
Definition sys_exit {A} (status : Z) : M A := raise (SystemExit status).

(** [self.mem[i]] *)
Definition mem_getitem (i : Z) : M bool :=
  fun m =>
    match list_getitem (deref (heap (env m)) (mem (self m))) i with
    | Some b => (Ok b, m)
    | None => (Raise IndexError, m)
    end.

(** [self.mem[i] = v]: the list object is updated in place, in the store. *)
Definition mem_setitem (i : Z) (v : bool) : M unit :=
  fun m =>
    match list_setitem (deref (heap (env m)) (mem (self m))) i v with
    | Some l' =>
        (Ok tt, mkMachine (self m)
                  (mkWorld (<[mem (self m) := l']> (heap (env m))) (out (env m))))
    | None => (Raise IndexError, m)
    end.

(** [k[i]] on an argument list *)
Definition getitem (k : list Z) (i : Z) : M Z :=
  match list_getitem k i with
  | Some x => ret x
  | None => raise IndexError
  end.

(** [a // b] and [a % b] *)
Definition floordiv (a b : Z) : M Z :=
  if b =? 0 then raise ZeroDivisionError else ret (a / b).

Definition pymod (a b : Z) : M Z :=
  if b =? 0 then raise ZeroDivisionError else ret (a mod b).

(** [a << n] *)
Definition lshift (a n : Z) : M Z :=
  if n <? 0 then raise ValueError else ret (Z.shiftl a n).

(** ** The class [APB] *)

Section APB.

Variable tc : tornadocnn.

(** [APB(memfile, apb_base, block_mode, verify_writes, no_error_stop)]: the
    new object, in the world where its list object has been allocated.
    [[False] * C_GROUP_OFFS * P_NUMGROUPS] is two list repetitions. *)
Definition __init__ (memfile : handle) (apb_base : Z)
    (block_mode verify_writes no_error_stop : bool) (w : world) : machine :=
  let l := fresh (dom (heap w)) in
  let bits := list_mul (list_mul [false] (C_GROUP_OFFS tc)) (P_NUMGROUPS tc) in
  let impl := if block_mode then Block else Top in
  mkMachine
    (mkAPB memfile 0 apb_base verify_writes no_error_stop 0 0 0 l impl impl)
    (mkWorld (<[l := bits]> (heap w)) (out w)).

Definition write_block (addr val : Z) (comment : string) (no_verify : bool) : M unit :=
  assert_ (0 <=? val);;
  assert_ (0 <=? addr);;
  s ← get_self;
  let addr := addr + apb_base s in
  memfile_write ("@" +:+ format_x 4 (foffs s) +:+ " " +:+ format_x 8 addr +:+ nl);;
  memfile_write ("@" +:+ format_x 4 (foffs s + 1) +:+ " " +:+ format_x 8 val +:+ nl);;
  modify_self (fun s => set_foffs (foffs s + 2) s).

Definition write_top (addr val : Z) (comment : string) (no_verify : bool) : M unit :=
  assert_ (0 <=? val);;
  assert_ (0 <=? addr);;
  s ← get_self;
  let addr := addr + apb_base s in
  memfile_write ("  *((volatile uint32_t *) 0x" +:+ format_x 8 addr +:+ ") = 0x"
                 +:+ format_x 8 val +:+ ";" +:+ comment +:+ nl);;
  if verify_writes s && negb no_verify then
    memfile_write ("  if (*((volatile uint32_t *) 0x" +:+ format_x 8 addr +:+ ") != 0x"
                   +:+ format_x 8 val +:+ ") " +:+ "return 0;" +:+ nl)
  else ret tt.

Definition verify_block (addr val : Z) (comment : string) (rv : bool) : M unit :=
  assert_ (0 <=? val);;
  assert_ (0 <=? addr).

Definition verify_top (addr val : Z) (comment : string) (rv : bool) : M unit :=
  assert_ (0 <=? val);;
  assert_ (0 <=? addr);;
  s ← get_self;
  let addr := addr + apb_base s in
  if rv then
    memfile_write ("  if (*((volatile uint32_t *) 0x" +:+ format_x 8 addr +:+ ") != 0x"
                   +:+ format_x 8 val +:+ ") " +:+ "return 0;" +:+ comment +:+ nl)
  else
    memfile_write ("  if (*((volatile uint32_t *) 0x" +:+ format_x 8 addr +:+ ") != 0x"
                   +:+ format_x 8 val +:+ ") " +:+ "return 0;" +:+ comment +:+ nl).

(** [self.write(...)] and [self.verify(...)]: the call goes to the method
    the constructor bound. *)
Definition write (addr val : Z) (comment : string) (no_verify : bool) : M unit :=
  s ← get_self;
  match write_impl s with
  | Block => write_block addr val comment no_verify
  | Top => write_top addr val comment no_verify
  end.

Definition verify (addr val : Z) (comment : string) (rv : bool) : M unit :=
  s ← get_self;
  match verify_impl s with
  | Block => verify_block addr val comment rv
  | Top => verify_top addr val comment rv
  end.

Definition set_memfile (f : handle) : M unit :=
  modify_self (set_memfile_field f);;
  modify_self (set_foffs 0).

(** [comment] may be [None] in [write_ctl] and [write_lreg], which then
    build one. *)
Definition write_ctl (group reg val : Z) (debug : bool) (comment : option string) : M unit :=
  let comment :=
    match comment with
    | None => " // global ctl " +:+ str reg
    | Some c => c
    end in
  let addr := C_GROUP_OFFS tc * group + C_CNN_BASE tc + reg * 4 in
  write addr val comment false;;
  if debug then
    print ("R" +:+ format_d 2 reg +:+ " (" +:+ format_x 8 addr +:+ "): "
           +:+ format_x 8 val +:+ comment)
  else ret tt.

Definition write_lreg (group layer reg val : Z) (debug : bool) (comment : option string)
    : M unit :=
  let comment :=
    match comment with
    | None => " // reg " +:+ str reg
    | Some c => c
    end in
  let addr := C_GROUP_OFFS tc * group + C_CNN_BASE tc + C_CNN tc * 4
              + reg * 4 * MAX_LAYERS tc + layer * 4 in
  write addr val comment false;;
  if debug then
    print ("G" +:+ str group +:+ " L" +:+ str layer +:+ " R" +:+ format_d 2 reg
           +:+ " (" +:+ format_x 8 addr +:+ "): " +:+ format_x 8 val +:+ comment)
  else ret tt.

Definition write_bias (group offs bias : Z) : M unit :=
  let addr := C_GROUP_OFFS tc * group + C_BRAM_BASE tc + offs * 4 in
  write addr (Z.land bias 255) " // Bias" false.

Definition write_tram (group proc offs d : Z) (comment : string) : M unit :=
  let addr := C_GROUP_OFFS tc * group + C_TRAM_BASE tc
              + proc * TRAM_SIZE tc * 4 + offs * 4 in
  write addr d (" // " +:+ comment +:+ "TRAM G" +:+ str group +:+ " P" +:+ str proc
                +:+ " #" +:+ str offs) false.

(** The three packed words of a kernel: [k[0] & 0xff] and
    [(a & 0xff) << 24 | (b & 0xff) << 16 | (c & 0xff) << 8 | d & 0xff]. *)
Definition kern_word (a b c d : Z) : Z :=
  Z.lor (Z.lor (Z.lor (Z.shiftl (Z.land a 255) 24) (Z.shiftl (Z.land b 255) 16))
               (Z.shiftl (Z.land c 255) 8))
        (Z.land d 255).

Definition write_kern (ll ch idx : Z) (k : list Z) : M unit :=
  assert_ (ch <? MAX_CHANNELS tc);;
  assert_ (idx <? MASK_WIDTH tc);;
  q ← floordiv ch (P_NUMPRO tc);
  r ← pymod ch (P_NUMPRO tc);
  let addr := C_GROUP_OFFS tc * q + C_MRAM_BASE tc + r * MASK_WIDTH tc * 16 + idx * 16 in
  k0 ← getitem k 0;
  write addr (Z.land k0 255)
        (" // Layer " +:+ str ll +:+ ": processor " +:+ str ch +:+ " kernel #" +:+ str idx)
        true;;
  k1 ← getitem k 1; k2 ← getitem k 2; k3 ← getitem k 3; k4 ← getitem k 4;
  write (addr + 4) (kern_word k1 k2 k3 k4) "" true;;
  k5 ← getitem k 5; k6 ← getitem k 6; k7 ← getitem k 7; k8 ← getitem k 8;
  write (addr + 8) (kern_word k5 k6 k7 k8) "" true;;
  write (addr + 12) 0 "" true;;
  s ← get_self;
  if verify_writes s then
    k0 ← getitem k 0;
    verify addr (Z.land k0 255) "" false;;
    k1 ← getitem k 1; k2 ← getitem k 2; k3 ← getitem k 3; k4 ← getitem k 4;
    verify (addr + 4) (kern_word k1 k2 k3 k4) "" false;;
    k5 ← getitem k 5; k6 ← getitem k 6; k7 ← getitem k 7; k8 ← getitem k 8;
    verify (addr + 8) (kern_word k5 k6 k7 k8) "" false;;
    verify (addr + 12) 0 "" false
  else ret tt.

Definition write_byte_flush (offs : Z) (comment : string) : M unit :=
  s ← get_self;
  (if 0 <? num s then
     let woffs := data_offs s - num s in
     seen ← mem_getitem (Z.shiftr woffs 2);
     (if (seen : bool) then
        print ("Overwriting location " +:+ format_x 8 woffs);;
        if negb (no_error_stop s) then sys_exit 1 else ret tt
      else ret tt);;
     write woffs (data s) comment false;;
     mem_setitem (Z.shiftr woffs 2) true;;
     modify_self (set_num 0);;
     modify_self (set_data 0)
   else ret tt);;
  modify_self (set_data_offs offs).

Definition write_byte (offs val : Z) (comment : string) : M unit :=
  s ← get_self;
  (if negb (offs =? data_offs s) then write_byte_flush offs "" else ret tt);;
  s ← get_self;
  sh ← lshift (Z.land val 255) (8 * num s);
  modify_self (set_data (Z.lor (data s) sh));;
  modify_self (fun s => set_num (num s + 1) s);;
  modify_self (fun s => set_data_offs (data_offs s + 1) s);;
  s ← get_self;
  if num s =? 4 then write_byte_flush (offs + 1) comment else ret tt.

(** The reference itself is returned, not a copy of the list. *)
Definition get_mem : M loc :=
  s ← get_self; ret (mem s).

(** ** Calls from outside

    Every method of the class, as a caller may invoke it. *)
Inductive call :=
| Cwrite_block (addr val : Z) (comment : string) (no_verify : bool)
| Cwrite_top (addr val : Z) (comment : string) (no_verify : bool)
| Cverify_block (addr val : Z) (comment : string) (rv : bool)
| Cverify_top (addr val : Z) (comment : string) (rv : bool)
| Cwrite (addr val : Z) (comment : string) (no_verify : bool)
| Cverify (addr val : Z) (comment : string) (rv : bool)
| Cset_memfile (f : handle)
| Cwrite_ctl (group reg val : Z) (debug : bool) (comment : option string)
| Cwrite_lreg (group layer reg val : Z) (debug : bool) (comment : option string)
| Cwrite_bias (group offs bias : Z)
| Cwrite_tram (group proc offs d : Z) (comment : string)
| Cwrite_kern (ll ch idx : Z) (k : list Z)
| Cwrite_byte_flush (offs : Z) (comment : string)
| Cwrite_byte (offs val : Z) (comment : string)
| Cget_mem.

Definition invoke (c : call) : M unit :=
  match c with
  | Cwrite_block a v c n => write_block a v c n
  | Cwrite_top a v c n => write_top a v c n
  | Cverify_block a v c r => verify_block a v c r
  | Cverify_top a v c r => verify_top a v c r
  | Cwrite a v c n => write a v c n
  | Cverify a v c r => verify a v c r
  | Cset_memfile f => set_memfile f
  | Cwrite_ctl g r v d c => write_ctl g r v d c
  | Cwrite_lreg g l r v d c => write_lreg g l r v d c
  | Cwrite_bias g o b => write_bias g o b
  | Cwrite_tram g p o d c => write_tram g p o d c
  | Cwrite_kern ll ch idx k => write_kern ll ch idx k
  | Cwrite_byte_flush o c => write_byte_flush o c
  | Cwrite_byte o v c => write_byte o v c
  | Cget_mem => _ ← get_mem; ret tt
  end.

(** A script of calls, stopped by the first exception. *)
Fixpoint invoke_all (cs : list call) : M unit :=
  match cs with
  | [] => ret tt
  | c :: cs' => invoke c;; invoke_all cs'
  end.

End APB.

(** ** A small device

    An instance of the memory map for the closed examples, scaled down
    so that its bitmap can be computed with: two groups of 64 bytes
    each, four processors per group. *)
Definition small_map : tornadocnn :=
  {| C_GROUP_OFFS := 64; P_NUMGROUPS := 2; C_CNN_BASE := 0; C_CNN := 4;
     MAX_LAYERS := 2; C_BRAM_BASE := 48; C_TRAM_BASE := 32; TRAM_SIZE := 1;
     C_MRAM_BASE := 0; P_NUMPRO := 4; MASK_WIDTH := 2; MAX_CHANNELS := 8 |}.

Definition empty_world : world := mkWorld ∅ [].

(** A fresh object of the small device, writing to file object 7: in top
    mode, without verification, stopping on overwrites. *)
Definition m0 : machine := __init__ small_map 7%nat 0 false false false empty_world.

(** The same object after the word [0x04030201] went to address 0 through
    the byte collector, and the collector was pointed back at offset 0:
    slot 0 is marked, the accumulator is empty and expects offset 0. *)
Definition m_marked : machine :=
  snd (invoke_all small_map
         [Cwrite_byte 0 1 ""; Cwrite_byte 1 2 ""; Cwrite_byte 2 3 ""; Cwrite_byte 3 4 "";
          Cwrite_byte_flush 0 ""] m0).

(** The fresh object with one byte pending, collected at offset 1. *)
Definition m_odd : machine := snd (write_byte 1 7 "" m0).

(** The fresh object with two bytes pending, collected at offsets 8 and 9. *)
Definition m_pending : machine :=
  snd ((write_byte 8 1 "";; write_byte 9 2 "") m0).

(** A memory map whose groups are wide enough for their mask words: four
    processors of two kernels each, 128 bytes, in groups of 1024. *)
Definition wide_map : tornadocnn :=
  {| C_GROUP_OFFS := 1024; P_NUMGROUPS := 2; C_CNN_BASE := 0; C_CNN := 4;
     MAX_LAYERS := 8; C_BRAM_BASE := 768; C_TRAM_BASE := 256; TRAM_SIZE := 16;
     C_MRAM_BASE := 512; P_NUMPRO := 4; MASK_WIDTH := 2; MAX_CHANNELS := 8 |}.

(** ** Vocabulary of the statements *)

(** The list object behind [self.mem], read through the store. *)
Definition bitmap (m : machine) : list bool :=
  deref (heap (env m)) (mem (self m)).

(** The machine after more events were logged. *)
Definition logged (evs : list event) (m : machine) : machine :=
  mkMachine (self m) (mkWorld (heap (env m)) (out (env m) ++ evs)).

(** The line formats of the two output encodings. *)
Definition mem_record (line v : Z) : string :=
  "@" +:+ format_x 4 line +:+ " " +:+ format_x 8 v +:+ nl.

Definition store_stmt (a v : Z) (comment : string) : string :=
  "  *((volatile uint32_t *) 0x" +:+ format_x 8 a +:+ ") = 0x" +:+ format_x 8 v
  +:+ ";" +:+ comment +:+ nl.

Definition guard_stmt (a v : Z) (comment : string) : string :=
  "  if (*((volatile uint32_t *) 0x" +:+ format_x 8 a +:+ ") != 0x" +:+ format_x 8 v
  +:+ ") return 0;" +:+ comment +:+ nl.

(** What one backend write of [val] to [addr] puts in the log, and what it
    does to the object. *)
Definition write_events (s : APB) (addr val : Z) (comment : string) (no_verify : bool)
    : list event :=
  match write_impl s with
  | Block =>
      [FileWrite (memfile s) (mem_record (foffs s) (addr + apb_base s));
       FileWrite (memfile s) (mem_record (foffs s + 1) val)]
  | Top =>
      FileWrite (memfile s) (store_stmt (addr + apb_base s) val comment)
      :: (if verify_writes s && negb no_verify
          then [FileWrite (memfile s) (guard_stmt (addr + apb_base s) val "")]
          else [])
  end.

Definition after_write (s : APB) : APB :=
  match write_impl s with
  | Block => set_foffs (foffs s + 2) s
  | Top => s
  end.

(** What one backend verify puts in the log. *)
Definition verify_events (s : APB) (addr val : Z) (comment : string) : list event :=
  match verify_impl s with
  | Block => []
  | Top => [FileWrite (memfile s) (guard_stmt (addr + apb_base s) val comment)]
  end.

(** The diagnostic of the overwrite check. *)
Definition overwrite_report (woffs : Z) : event :=
  Print ("Overwriting location " +:+ format_x 8 woffs).

(** The word a pending accumulator would be flushed to, and its slot in
    the bitmap. *)
Definition pending_addr (s : APB) : Z := data_offs s - num s.
Definition slot_of (addr : Z) : Z := Z.shiftr addr 2.

(** Little-endian packing of four bytes. *)
Definition pack_le (b0 b1 b2 b3 : Z) : Z :=
  Z.lor (Z.lor (Z.lor b0 (Z.shiftl b1 8)) (Z.shiftl b2 16)) (Z.shiftl b3 24).

Definition is_byte (b : Z) : Prop := 0 <= b < 256.


(** Everything but the sink, the line counter and the log is as before. *)
Definition same_engine (m m' : machine) : Prop :=
  heap (env m') = heap (env m)
  /\ mem (self m') = mem (self m)
  /\ data (self m') = data (self m)
  /\ num (self m') = num (self m)
  /\ data_offs (self m') = data_offs (self m)
  /\ apb_base (self m') = apb_base (self m)
  /\ verify_writes (self m') = verify_writes (self m)
  /\ no_error_stop (self m') = no_error_stop (self m)
  /\ write_impl (self m') = write_impl (self m)
  /\ verify_impl (self m') = verify_impl (self m).

(** The bitmap is the same object, as long as before, and no slot went
    back to [False]. *)
Definition bitmap_grows (m m' : machine) : Prop :=
  mem (self m') = mem (self m)
  /\ length (bitmap m') = length (bitmap m)
  /\ forall j, bitmap m !! j = Some true -> bitmap m' !! j = Some true.

(** An event is a report of the overwrite check. *)
Definition is_report (e : event) : bool :=
  match e with
  | Print s => String.prefix "Overwriting location " s
  | FileWrite _ _ => false
  end.

(** The engine is as before, and what was logged has no report of the
    overwrite check in it. *)
Definition untracked (m m' : machine) : Prop :=
  same_engine m m'
  /\ exists evs, out (env m') = out (env m) ++ evs
                 /\ forallb (fun e => negb (is_report e)) evs = true.

(** The calls that do not go through the byte collector. *)
Definition is_direct (c : call) : bool :=
  match c with
  | Cwrite_byte _ _ _ | Cwrite_byte_flush _ _ => false
  | _ => true
  end.

(** The machine a flush of pending bytes leaves when it gets through: the
    word went to the backend, after the report if the slot [n] had been
    seen; the slot is marked in the list object; the accumulator is
    empty and expects [offs]. *)
Definition flushed (offs : Z) (comment : string) (seen : bool) (n : nat) (m : machine)
    : machine :=
  let s := self m in
  mkMachine
    (set_data_offs offs (set_data 0 (set_num 0 (after_write s))))
    (mkWorld (<[mem s := <[n := true]> (bitmap m)]> (heap (env m)))
       (out (env m) ++ (if seen then [overwrite_report (pending_addr s)] else [])
          ++ write_events s (pending_addr s) (data s) comment false)).

(** A computation keeps a relation between the machine it starts from and
    the one it ends in, however it ends. *)
Definition respects {A} (R : machine -> machine -> Prop) (c : M A) : Prop :=
  forall m r m', c m = (r, m') -> R m m'.

(** The calls [write_kern] is claimed to make for the kernel
    [[1; 2; 3; 4; 5; 6; 7; 8; 9]] at word group [base]: four writes with
    [no_verify] set, then four verifies when [verify_writes] is set. *)
Definition kern_calls (base : Z) (comment : string) : M unit :=
  write base 0x00000001 comment true;;
  write (base + 4) 0x02030405 "" true;;
  write (base + 8) 0x06070809 "" true;;
  write (base + 12) 0x00000000 "" true;;
  s ← get_self;
  if verify_writes s then
    verify base 0x00000001 "" false;;
    verify (base + 4) 0x02030405 "" false;;
    verify (base + 8) 0x06070809 "" false;;
    verify (base + 12) 0x00000000 "" false
  else ret tt.

(** And what those calls put in the log, for either backend. *)
Definition kern_log (s : APB) (base : Z) (comment : string) : list event :=
  let f := memfile s in
  let b := apb_base s in
  match write_impl s with
  | Top =>
      [FileWrite f (store_stmt (base + b) 0x00000001 comment);
       FileWrite f (store_stmt (base + 4 + b) 0x02030405 "");
       FileWrite f (store_stmt (base + 8 + b) 0x06070809 "");
       FileWrite f (store_stmt (base + 12 + b) 0x00000000 "")]
  | Block =>
      [FileWrite f (mem_record (foffs s) (base + b));
       FileWrite f (mem_record (foffs s + 1) 0x00000001);
       FileWrite f (mem_record (foffs s + 2) (base + 4 + b));
       FileWrite f (mem_record (foffs s + 3) 0x02030405);
       FileWrite f (mem_record (foffs s + 4) (base + 8 + b));
       FileWrite f (mem_record (foffs s + 5) 0x06070809);
       FileWrite f (mem_record (foffs s + 6) (base + 12 + b));
       FileWrite f (mem_record (foffs s + 7) 0x00000000)]
  end
  ++ (if verify_writes s then
        match verify_impl s with
        | Top =>
            [FileWrite f (guard_stmt (base + b) 0x00000001 "");
             FileWrite f (guard_stmt (base + 4 + b) 0x02030405 "");
             FileWrite f (guard_stmt (base + 8 + b) 0x06070809 "");
             FileWrite f (guard_stmt (base + 12 + b) 0x00000000 "")]
        | Block => []
        end
      else []).

(** The address of the word group of a kernel. *)
Definition kern_addr (tc : tornadocnn) (ch idx : Z) : Z :=
  C_GROUP_OFFS tc * (ch / P_NUMPRO tc) + C_MRAM_BASE tc
  + (ch mod P_NUMPRO tc) * MASK_WIDTH tc * 16 + idx * 16.

Definition kern_comment (ll ch idx : Z) : string :=
  " // Layer " +:+ str ll +:+ ": processor " +:+ str ch +:+ " kernel #" +:+ str idx.

(** A caller's loop over whole words: the four bytes of each word go to
    [write_byte] at consecutive offsets, all with the same comment. *)
Fixpoint write_words (o : Z) (ws : list (Z * Z * Z * Z)) (comment : string) : M unit :=
  match ws with
  | [] => ret tt
  | (b0, b1, b2, b3) :: ws' =>
      write_byte o b0 comment;; write_byte (o + 1) b1 comment;;
      write_byte (o + 2) b2 comment;; write_byte (o + 3) b3 comment;;
      write_words (o + 4) ws' comment
  end.

(** What backend writes of the packed words to [o], [o + 4], ... put in
    the log, one after the other. *)
Fixpoint words_log (s : APB) (o : Z) (ws : list (Z * Z * Z * Z)) (comment : string)
    : list event :=
  match ws with
  | [] => []
  | (b0, b1, b2, b3) :: ws' =>
      write_events s o (pack_le b0 b1 b2 b3) comment false
      ++ words_log (after_write s) (o + 4) ws' comment
  end.

Definition word_bytes (w : Z * Z * Z * Z) : Prop :=
  let '(b0, b1, b2, b3) := w in is_byte b0 /\ is_byte b1 /\ is_byte b2 /\ is_byte b3.

(** The accumulator holds nothing above the bytes collected. *)
Definition acc_tight (s : APB) : Prop :=
  0 <= num s < 4 /\ 0 <= data s < 2 ^ (8 * num s).

(** Two objects a backend write cannot tell apart. *)
Definition same_sink (s s' : APB) : Prop :=
  memfile s' = memfile s /\ foffs s' = foffs s /\ apb_base s' = apb_base s
  /\ verify_writes s' = verify_writes s /\ write_impl s' = write_impl s.

(** A change of the object that only touches the accumulator. *)
Definition only_acc (f : APB -> APB) : Prop :=
  forall s,
    memfile (f s) = memfile s /\ foffs (f s) = foffs s /\ apb_base (f s) = apb_base s
    /\ verify_writes (f s) = verify_writes s /\ no_error_stop (f s) = no_error_stop s
    /\ mem (f s) = mem s /\ write_impl (f s) = write_impl s
    /\ verify_impl (f s) = verify_impl s.

(** The calls that go through the bound [write] and [verify]. *)
Definition is_bound (c : call) : bool :=
  match c with
  | Cwrite_block _ _ _ _ | Cwrite_top _ _ _ _ | Cverify_block _ _ _ _
  | Cverify_top _ _ _ _ | Cset_memfile _ => false
  | _ => true
  end.

(** What the constructor fixed is as it was. *)
Definition config_kept (m m' : machine) : Prop :=
  apb_base (self m') = apb_base (self m)
  /\ verify_writes (self m') = verify_writes (self m)
  /\ no_error_stop (self m') = no_error_stop (self m)
  /\ write_impl (self m') = write_impl (self m)
  /\ verify_impl (self m') = verify_impl (self m)
  /\ mem (self m') = mem (self m).

Definition is_file_write (e : event) : bool :=
  match e with
  | FileWrite _ _ => true
  | Print _ => false
  end.

(** For an object bound to the block backend: it still is, it still
    writes to the same file object, and its line counter went up by the
    number of lines written meanwhile, all of them to that file object. *)
Definition block_counted (m m' : machine) : Prop :=
  write_impl (self m) = Block -> verify_impl (self m) = Block ->
  write_impl (self m') = Block /\ verify_impl (self m') = Block
  /\ memfile (self m') = memfile (self m)
  /\ exists evs,
       out (env m') = out (env m) ++ evs
       /\ foffs (self m') = foffs (self m) + Z.of_nat (length (List.filter is_file_write evs))
       /\ forall f s, In (FileWrite f s) evs -> f = memfile (self m).

(** Started with [no_error_stop] set, a computation ends with it set and
    not in [sys.exit]. *)
Definition never_exits {A} (c : M A) : Prop :=
  forall m r m',
    no_error_stop (self m) = true -> c m = (r, m') ->
    no_error_stop (self m') = true /\ forall n, r <> Raise (SystemExit n).

(** What the calls of [write_kern] put in the log when the three packed
    words are [w0], [w1] and [w2], for either backend. *)
Definition kern_words_log (s : APB) (base : Z) (comment : string) (w0 w1 w2 : Z)
    : list event :=
  let f := memfile s in
  let b := apb_base s in
  match write_impl s with
  | Top =>
      [FileWrite f (store_stmt (base + b) w0 comment);
       FileWrite f (store_stmt (base + 4 + b) w1 "");
       FileWrite f (store_stmt (base + 8 + b) w2 "");
       FileWrite f (store_stmt (base + 12 + b) 0 "")]
  | Block =>
      [FileWrite f (mem_record (foffs s) (base + b));
       FileWrite f (mem_record (foffs s + 1) w0);
       FileWrite f (mem_record (foffs s + 2) (base + 4 + b));
       FileWrite f (mem_record (foffs s + 3) w1);
       FileWrite f (mem_record (foffs s + 4) (base + 8 + b));
       FileWrite f (mem_record (foffs s + 5) w2);
       FileWrite f (mem_record (foffs s + 6) (base + 12 + b));
       FileWrite f (mem_record (foffs s + 7) 0)]
  end
  ++ (if verify_writes s then
        match verify_impl s with
        | Top =>
            [FileWrite f (guard_stmt (base + b) w0 "");
             FileWrite f (guard_stmt (base + 4 + b) w1 "");
             FileWrite f (guard_stmt (base + 8 + b) w2 "");
             FileWrite f (guard_stmt (base + 12 + b) 0 "")]
        | Block => []
        end
      else []).


(** The address of word [offs] of the bias memory of group [group]. *)
Definition bias_addr (tc : tornadocnn) (group offs : Z) : Z :=
  C_GROUP_OFFS tc * group + C_BRAM_BASE tc + offs * 4.

(** Two objects with the same accumulator, flags and bitmap reference;
    sink, line counter, base address and backends may differ. *)
Definition agree (s1 s2 : APB) : Prop :=
  data s2 = data s1 /\ num s2 = num s1 /\ data_offs s2 = data_offs s1
  /\ verify_writes s2 = verify_writes s1 /\ no_error_stop s2 = no_error_stop s1
  /\ mem s2 = mem s1.

(** Two machines whose objects agree over the same store. *)
Definition twin (m1 m2 : machine) : Prop :=
  agree (self m1) (self m2) /\ heap (env m2) = heap (env m1).

(** Two computations that, started on twins, end on twins and in the
    same way: both return, with related values, or both raise the same
    exception. *)
Definition alike {A} (RA : A -> A -> Prop) (c1 c2 : M A) : Prop :=
  forall m1 m2, twin m1 m2 ->
    twin (snd (c1 m1)) (snd (c2 m2))
    /\ match fst (c1 m1), fst (c2 m2) with
       | Ok a1, Ok a2 => RA a1 a2
       | Raise e1, Raise e2 => e1 = e2
       | _, _ => False
       end.

(** * Proofs *)

(** ** Reduction of the monad *)

Ltac mred :=
  cbv [mbind M_bind bind ret raise get_self modify_self emit assert_ memfile_write
       print sys_exit mem_getitem mem_setitem getitem floordiv pymod lshift
       write verify write_top write_block verify_top verify_block
       list_getitem list_setitem logged].

Ltac fsimpl :=
  cbn [self env heap out memfile foffs apb_base verify_writes no_error_stop data num
       data_offs mem write_impl verify_impl set_foffs set_num set_data set_data_offs
       set_memfile_field andb negb fst snd] in *.

(** ** Python indexing *)

Lemma py_index_lt len i n : py_index len i = Some n -> (Z.of_nat n < len).
Proof.
  unfold py_index.
  destruct (Z.leb_spec 0 i), (Z.ltb_spec i len); cbn; try (intros [= <-]; lia);
  destruct (Z.leb_spec (-len) i), (Z.ltb_spec i 0); cbn; try (intros [= <-]; lia); discriminate.
Qed.

(** ** The backends *)

Lemma write_run addr val c nv m :
  0 <= addr -> 0 <= val ->
  write addr val c nv m
  = (Ok tt, mkMachine (after_write (self m))
              (mkWorld (heap (env m)) (out (env m) ++ write_events (self m) addr val c nv))).
Proof.
  intros Ha Hv. unfold write_events, after_write. mred.
  destruct (Z.leb_spec 0 val); [|lia]. destruct (Z.leb_spec 0 addr); [|lia].
  destruct m as [s w]; cbn [self env heap out].
  destruct (write_impl s).
  - cbn [self env heap out]. rewrite <- app_assoc. reflexivity.
  - cbn [self env heap out]. destruct (verify_writes s && negb nv); cbn [self env heap out].
    + rewrite <- app_assoc. reflexivity.
    + reflexivity.
Qed.

Lemma write_raise addr val c nv m :
  ~ (0 <= addr /\ 0 <= val) ->
  write addr val c nv m = (Raise AssertionError, m).
Proof.
  intros H. mred. destruct (write_impl (self m));
    destruct (Z.leb_spec 0 val); try reflexivity;
    destruct (Z.leb_spec 0 addr); try reflexivity; lia.
Qed.

(** ** The flush *)

Lemma flush_idle offs c m :
  num (self m) <= 0 ->
  write_byte_flush offs c m
  = (Ok tt, mkMachine (set_data_offs offs (self m)) (env m)).
Proof.
  intros H. unfold write_byte_flush. mred.
  destruct (Z.ltb_spec 0 (num (self m))); [lia|]. reflexivity.
Qed.


Lemma flush_run offs c m seen n :
  0 < num (self m) ->
  py_index (Z.of_nat (length (bitmap m))) (slot_of (pending_addr (self m))) = Some n ->
  bitmap m !! n = Some seen ->
  seen = false \/ no_error_stop (self m) = true ->
  0 <= pending_addr (self m) -> 0 <= data (self m) ->
  write_byte_flush offs c m = (Ok tt, flushed offs c seen n m).
Proof.
  intros Hn Hi Hs Hgo Ha Hd.
  apply Z.ltb_lt in Hn. apply Z.leb_le in Ha, Hd.
  unfold slot_of, pending_addr, bitmap in *.
  unfold write_byte_flush, flushed, write_events, after_write, overwrite_report, pending_addr, bitmap.
  mred. rewrite Hn. cbv beta iota. rewrite Hi, Hs.
  destruct m as [s [h o]]; fsimpl.
  assert (Hnes : seen = true -> no_error_stop s = true) by (destruct Hgo; congruence).
  destruct seen; [rewrite Hnes by reflexivity|]; fsimpl; rewrite Hd, Ha; fsimpl;
    destruct (write_impl s); fsimpl; rewrite ?Hi; fsimpl;
    try destruct (verify_writes s); fsimpl; rewrite ?Hi; fsimpl;
    rewrite <- ?app_assoc; reflexivity.
Qed.

Lemma flush_stop offs c m n :
  0 < num (self m) ->
  py_index (Z.of_nat (length (bitmap m))) (slot_of (pending_addr (self m))) = Some n ->
  bitmap m !! n = Some true ->
  no_error_stop (self m) = false ->
  write_byte_flush offs c m
  = (Raise (SystemExit 1), logged [overwrite_report (pending_addr (self m))] m).
Proof.
  intros Hn Hi Hs Hnes. apply Z.ltb_lt in Hn.
  unfold slot_of, pending_addr, bitmap in *.
  unfold write_byte_flush, overwrite_report, pending_addr.
  mred. rewrite Hn. cbv beta iota. rewrite Hi, Hs, Hnes. reflexivity.
Qed.

Lemma flush_index_error offs c m :
  0 < num (self m) ->
  py_index (Z.of_nat (length (bitmap m))) (slot_of (pending_addr (self m))) = None ->
  write_byte_flush offs c m = (Raise IndexError, m).
Proof.
  intros Hn Hi. apply Z.ltb_lt in Hn.
  unfold slot_of, pending_addr, bitmap in *.
  unfold write_byte_flush. mred. rewrite Hn. cbv beta iota. rewrite Hi. reflexivity.
Qed.

Lemma flush_assert offs c m seen n :
  0 < num (self m) ->
  py_index (Z.of_nat (length (bitmap m))) (slot_of (pending_addr (self m))) = Some n ->
  bitmap m !! n = Some seen ->
  seen = false \/ no_error_stop (self m) = true ->
  ~ (0 <= pending_addr (self m) /\ 0 <= data (self m)) ->
  write_byte_flush offs c m
  = (Raise AssertionError,
     logged (if seen then [overwrite_report (pending_addr (self m))] else []) m).
Proof.
  intros Hn Hi Hs Hgo Hneg. apply Z.ltb_lt in Hn.
  assert (Hnes : seen = true -> no_error_stop (self m) = true) by (destruct Hgo; congruence).
  unfold slot_of, pending_addr, bitmap in *.
  unfold write_byte_flush, overwrite_report, pending_addr.
  mred. rewrite Hn. cbv beta iota. rewrite Hi, Hs.
  destruct m as [s [h o]]; fsimpl.
  destruct seen; [rewrite Hnes by reflexivity|]; fsimpl;
    destruct (write_impl s); fsimpl;
    destruct (Z.leb_spec 0 (data s)); fsimpl; rewrite ?app_nil_r; try reflexivity;
    destruct (Z.leb_spec 0 (data_offs s - num s)); fsimpl; rewrite ?app_nil_r;
      try reflexivity; lia.
Qed.

Lemma slot_index (l : list bool) (w : Z) :
  0 <= w -> slot_of w < Z.of_nat (length l) ->
  py_index (Z.of_nat (length l)) (slot_of w) = Some (Z.to_nat (slot_of w)).
Proof.
  intros Hw Hl. unfold py_index.
  assert (0 <= slot_of w) by (unfold slot_of; apply Z.shiftr_nonneg; lia).
  destruct (Z.leb_spec 0 (slot_of w)); [|lia].
  destruct (Z.ltb_spec (slot_of w) (Z.of_nat (length l))); [reflexivity|lia].
Qed.

Lemma py_index_lookup {A} (l : list A) (i : Z) (n : nat) :
  py_index (Z.of_nat (length l)) i = Some n -> is_Some (l !! n).
Proof.
  intros H. apply py_index_lt in H. apply lookup_lt_is_Some. lia.
Qed.

(** A flush of pending bytes that gets through went one of the ways of
    [flush_run]. *)
Lemma flush_ok_inv offs c m m' :
  0 < num (self m) ->
  write_byte_flush offs c m = (Ok tt, m') ->
  exists seen n,
    py_index (Z.of_nat (length (bitmap m))) (slot_of (pending_addr (self m))) = Some n
    /\ bitmap m !! n = Some seen
    /\ (seen = false \/ no_error_stop (self m) = true)
    /\ 0 <= pending_addr (self m) /\ 0 <= data (self m)
    /\ m' = flushed offs c seen n m.
Proof.
  intros Hn Hrun.
  destruct (py_index (Z.of_nat (length (bitmap m))) (slot_of (pending_addr (self m))))
    as [n|] eqn:Hi.
  2:{ rewrite flush_index_error in Hrun by assumption. discriminate. }
  destruct (py_index_lookup _ _ _ Hi) as [seen Hs].
  assert (Hcases : (seen = true /\ no_error_stop (self m) = false)
                   \/ seen = false \/ no_error_stop (self m) = true)
    by (destruct seen, (no_error_stop (self m)); auto).
  destruct Hcases as [[-> Hnes]|Hgo].
  { rewrite (flush_stop _ _ _ n) in Hrun by assumption. discriminate. }
  destruct (Z.leb_spec 0 (pending_addr (self m))) as [Ha|Ha].
  - destruct (Z.leb_spec 0 (data (self m))) as [Hd|Hd].
    + rewrite (flush_run _ _ _ seen n) in Hrun by assumption.
      exists seen, n. injection Hrun as <-. auto 10.
    + rewrite (flush_assert _ _ _ seen n) in Hrun by (auto; lia). discriminate.
  - rewrite (flush_assert _ _ _ seen n) in Hrun by (auto; lia). discriminate.
Qed.

(** However a flush of pending bytes ends, it is one of five ways. *)
Lemma flush_cases offs c m :
  0 < num (self m) ->
  write_byte_flush offs c m = (Raise IndexError, m)
  \/ (exists n, bitmap m !! n = Some true
        /\ write_byte_flush offs c m
           = (Raise (SystemExit 1), logged [overwrite_report (pending_addr (self m))] m))
  \/ (exists evs, write_byte_flush offs c m = (Raise AssertionError, logged evs m))
  \/ (exists seen n,
        py_index (Z.of_nat (length (bitmap m))) (slot_of (pending_addr (self m))) = Some n
        /\ write_byte_flush offs c m = (Ok tt, flushed offs c seen n m)).
Proof.
  intros Hn.
  destruct (py_index (Z.of_nat (length (bitmap m))) (slot_of (pending_addr (self m))))
    as [n|] eqn:Hi.
  2:{ left. apply flush_index_error; assumption. }
  destruct (py_index_lookup _ _ _ Hi) as [seen Hs].
  assert (Hcases : (seen = true /\ no_error_stop (self m) = false)
                   \/ seen = false \/ no_error_stop (self m) = true)
    by (destruct seen, (no_error_stop (self m)); auto).
  destruct Hcases as [[-> Hnes]|Hgo].
  { right; left. exists n. split; [assumption|]. apply (flush_stop _ _ _ n); assumption. }
  destruct (Z.leb_spec 0 (pending_addr (self m))) as [Ha|Ha].
  - destruct (Z.leb_spec 0 (data (self m))) as [Hd|Hd].
    + right; right; right. exists seen, n. split; [reflexivity|].
      apply flush_run; assumption.
    + right; right; left. eexists. apply (flush_assert _ _ _ seen n); auto; lia.
  - right; right; left. eexists. apply (flush_assert _ _ _ seen n); auto; lia.
Qed.

(** ** The byte collector *)

(** Where [write_byte] leaves the object once the byte is in. *)
Lemma write_byte_collect offs val c m :
  0 <= num (self m) -> num (self m) <> 3 ->
  offs = data_offs (self m) \/ num (self m) = 0 ->
  write_byte offs val c m
  = (Ok tt,
     mkMachine
       (set_data_offs (offs + 1)
          (set_num (num (self m) + 1)
             (set_data (Z.lor (data (self m))
                              (Z.shiftl (Z.land val 255) (8 * num (self m))))
                       (self m))))
       (env m)).
Proof.
  intros Hn0 Hn3 Hoffs. unfold write_byte, write_byte_flush. mred.
  destruct m as [s w]; fsimpl.
  destruct (Z.eqb_spec offs (data_offs s)) as [->|Hne]; fsimpl.
  - destruct (Z.ltb_spec (8 * num s) 0); [lia|]. fsimpl.
    destruct (Z.eqb_spec (num s + 1) 4); [lia|]. reflexivity.
  - destruct Hoffs as [|Hz]; [contradiction|].
    destruct (Z.ltb_spec 0 (num s)); [lia|]. fsimpl.
    destruct (Z.ltb_spec (8 * num s) 0); [lia|]. fsimpl.
    destruct (Z.eqb_spec (num s + 1) 4); [lia|]. reflexivity.
Qed.

(** The fourth byte: the word is complete and flushed in the same call. *)
Lemma write_byte_fourth offs val c m :
  num (self m) = 3 -> offs = data_offs (self m) ->
  write_byte offs val c m
  = write_byte_flush (offs + 1) c
      (mkMachine
         (set_data_offs (offs + 1)
            (set_num 4
               (set_data (Z.lor (data (self m)) (Z.shiftl (Z.land val 255) 24))
                         (self m))))
         (env m)).
Proof.
  intros Hn ->. unfold write_byte. mred.
  destruct m as [s w]; fsimpl. rewrite Z.eqb_refl. fsimpl. rewrite Hn.
  change (8 * 3 <? 0) with false. cbv beta iota. fsimpl. rewrite Hn.
  reflexivity.
Qed.

(** A byte that does not continue the pending run: the run is flushed
    first, with an empty comment, and the byte starts the next one. *)
Lemma write_byte_discontinuous offs val c m :
  0 < num (self m) -> offs <> data_offs (self m) ->
  write_byte offs val c m
  = match write_byte_flush offs "" m with
    | (Ok _, m1) =>
        write_byte offs val c m1
    | (Raise e, m1) => (Raise e, m1)
    end.
Proof.
  intros Hn Hne.
  destruct (write_byte_flush offs "" m) as [[[]|e] m1] eqn:Hf.
  - destruct (flush_ok_inv _ _ _ _ Hn Hf) as (seen & n & _ & _ & _ & _ & _ & ->).
    unfold write_byte at 1 2. unfold mbind, M_bind, bind, get_self.
    destruct (Z.eqb_spec offs (data_offs (self m))); [contradiction|].
    cbn [negb]. rewrite Hf. unfold flushed. fsimpl. rewrite Z.eqb_refl. reflexivity.
  - unfold write_byte. unfold mbind, M_bind, bind, get_self.
    destruct (Z.eqb_spec offs (data_offs (self m))); [contradiction|].
    cbn [negb]. rewrite Hf. reflexivity.
Qed.

(** ** What the methods leave alone *)

Section Respects.

Variable R : machine -> machine -> Prop.
Hypothesis R_refl : forall m, R m m.
Hypothesis R_trans : forall m1 m2 m3, R m1 m2 -> R m2 m3 -> R m1 m3.

Lemma respects_ret {A} (a : A) : respects R (ret a).
Proof. intros m r m' [= _ <-]. apply R_refl. Qed.

Lemma respects_raise {A} (e : exn) : respects R (@raise A e).
Proof. intros m r m' [= _ <-]. apply R_refl. Qed.

Lemma respects_bind {A B} (c : M A) (k : A -> M B) :
  respects R c -> (forall a, respects R (k a)) -> respects R (c ≫= k).
Proof.
  intros Hc Hk m r m'. unfold mbind, M_bind, bind.
  destruct (c m) as [[a|e] m1] eqn:Hcm.
  - intros Hkm. eapply R_trans; [eapply Hc; eassumption|eapply Hk; eassumption].
  - intros [= _ <-]. eapply Hc; eassumption.
Qed.

Lemma respects_get_self : respects R get_self.
Proof. intros m r m' [= _ <-]. apply R_refl. Qed.

Lemma respects_assert b : respects R (assert_ b).
Proof. destruct b; [apply respects_ret|apply respects_raise]. Qed.

Lemma respects_getitem k i : respects R (getitem k i).
Proof.
  unfold getitem. destruct (list_getitem k i); [apply respects_ret|apply respects_raise].
Qed.

Lemma respects_floordiv a b : respects R (floordiv a b).
Proof.
  unfold floordiv. destruct (b =? 0); [apply respects_raise|apply respects_ret].
Qed.

Lemma respects_pymod a b : respects R (pymod a b).
Proof.
  unfold pymod. destruct (b =? 0); [apply respects_raise|apply respects_ret].
Qed.

Lemma respects_lshift a n : respects R (lshift a n).
Proof.
  unfold lshift. destruct (n <? 0); [apply respects_raise|apply respects_ret].
Qed.

End Respects.

Create HintDb respects.

#[local] Hint Resolve respects_ret respects_raise respects_get_self respects_assert
  respects_getitem respects_floordiv respects_pymod respects_lshift : respects.

(** Breaks a method into its calls, and leaves those no hint settles. *)
Ltac respects_steps :=
  repeat first
    [ solve [eauto with respects]
    | eapply respects_bind; [solve [eauto with respects] | | intros ?]
    | match goal with
      | |- respects _ (if ?b then _ else _) => destruct b
      | |- respects _ (match ?x with _ => _ end) => destruct x
      end ].

Lemma same_engine_refl m : same_engine m m.
Proof. unfold same_engine. auto 12. Qed.

Lemma same_engine_trans m1 m2 m3 :
  same_engine m1 m2 -> same_engine m2 m3 -> same_engine m1 m3.
Proof. unfold same_engine. intuition congruence. Qed.

Lemma untracked_refl m : untracked m m.
Proof.
  split; [apply same_engine_refl|]. exists []. rewrite app_nil_r. auto.
Qed.

Lemma untracked_trans m1 m2 m3 : untracked m1 m2 -> untracked m2 m3 -> untracked m1 m3.
Proof.
  intros [He1 (evs1 & Ho1 & Hq1)] [He2 (evs2 & Ho2 & Hq2)].
  split; [eapply same_engine_trans; eassumption|].
  exists (evs1 ++ evs2). rewrite Ho2, Ho1, app_assoc. split; [reflexivity|].
  rewrite forallb_app, Hq1, Hq2. reflexivity.
Qed.

#[local] Hint Resolve untracked_refl untracked_trans : respects.

Lemma emit_untracked e : is_report e = false -> respects untracked (emit e).
Proof.
  intros He m r m' [= _ <-]. split.
  - unfold same_engine. fsimpl. auto 12.
  - exists [e]. fsimpl. split; [reflexivity|]. cbn. rewrite He. reflexivity.
Qed.

Lemma modify_untracked f :
  (forall s, f s = set_foffs (foffs (f s)) (set_memfile_field (memfile (f s)) s)) ->
  respects untracked (modify_self f).
Proof.
  intros Hf m r m' [= _ <-]. split.
  - unfold same_engine. fsimpl. rewrite (Hf (self m)). fsimpl. auto 12.
  - exists []. fsimpl. rewrite app_nil_r. auto.
Qed.

Lemma memfile_write_untracked s : respects untracked (memfile_write s).
Proof.
  unfold memfile_write. respects_steps. apply emit_untracked. reflexivity.
Qed.

#[local] Hint Resolve memfile_write_untracked : respects.

Lemma write_block_untracked a v c nv : respects untracked (write_block a v c nv).
Proof. unfold write_block. respects_steps. apply modify_untracked. reflexivity. Qed.

Lemma write_top_untracked a v c nv : respects untracked (write_top a v c nv).
Proof. unfold write_top. respects_steps. Qed.

Lemma verify_block_untracked a v c rv : respects untracked (verify_block a v c rv).
Proof. unfold verify_block. respects_steps. Qed.

Lemma verify_top_untracked a v c rv : respects untracked (verify_top a v c rv).
Proof. unfold verify_top. respects_steps. Qed.

#[local] Hint Resolve write_block_untracked write_top_untracked
  verify_block_untracked verify_top_untracked : respects.

Lemma write_untracked a v c nv : respects untracked (write a v c nv).
Proof. unfold write. respects_steps. Qed.

Lemma verify_untracked a v c rv : respects untracked (verify a v c rv).
Proof. unfold verify. respects_steps. Qed.

#[local] Hint Resolve write_untracked verify_untracked : respects.

Lemma set_memfile_untracked f : respects untracked (set_memfile f).
Proof.
  unfold set_memfile. respects_steps; apply modify_untracked; reflexivity.
Qed.

(** The debug lines of [write_ctl] and [write_lreg] start with another
    letter than the report. *)
Lemma write_ctl_untracked tc g r v d c : respects untracked (write_ctl tc g r v d c).
Proof.
  unfold write_ctl. respects_steps. apply emit_untracked. reflexivity.
Qed.

Lemma write_lreg_untracked tc g l r v d c : respects untracked (write_lreg tc g l r v d c).
Proof.
  unfold write_lreg. respects_steps. apply emit_untracked. reflexivity.
Qed.

Lemma write_bias_untracked tc g o b : respects untracked (write_bias tc g o b).
Proof. unfold write_bias. respects_steps. Qed.

Lemma write_tram_untracked tc g p o d c : respects untracked (write_tram tc g p o d c).
Proof. unfold write_tram. respects_steps. Qed.

Lemma write_kern_untracked tc ll ch idx k : respects untracked (write_kern tc ll ch idx k).
Proof. unfold write_kern. respects_steps. Qed.

Lemma get_mem_untracked : respects untracked get_mem.
Proof. unfold get_mem. respects_steps. Qed.

(** Every call but the two of the byte collector. *)
Lemma direct_untracked tc c : is_direct c = true -> respects untracked (invoke tc c).
Proof.
  destruct c; cbn [is_direct invoke]; try discriminate; intros _.
  - apply write_block_untracked.
  - apply write_top_untracked.
  - apply verify_block_untracked.
  - apply verify_top_untracked.
  - apply write_untracked.
  - apply verify_untracked.
  - apply set_memfile_untracked.
  - apply write_ctl_untracked.
  - apply write_lreg_untracked.
  - apply write_bias_untracked.
  - apply write_tram_untracked.
  - apply write_kern_untracked.
  - respects_steps; apply get_mem_untracked.
Qed.

(** ** The bitmap only grows *)

Lemma bitmap_grows_refl m : bitmap_grows m m.
Proof. unfold bitmap_grows. auto. Qed.

Lemma bitmap_grows_trans m1 m2 m3 :
  bitmap_grows m1 m2 -> bitmap_grows m2 m3 -> bitmap_grows m1 m3.
Proof.
  intros (Hm1 & Hl1 & Hj1) (Hm2 & Hl2 & Hj2). unfold bitmap_grows.
  repeat split; [congruence|congruence|auto].
Qed.

Lemma same_engine_bitmap m m' : same_engine m m' -> bitmap m' = bitmap m.
Proof. intros (Hh & Hm & _). unfold bitmap. rewrite Hh, Hm. reflexivity. Qed.

Lemma untracked_bitmap_grows m m' : untracked m m' -> bitmap_grows m m'.
Proof.
  intros [He _]. pose proof (same_engine_bitmap _ _ He) as Hb.
  destruct He as (_ & Hm & _). unfold bitmap_grows. rewrite Hb. auto.
Qed.

Lemma bitmap_logged evs m : bitmap (logged evs m) = bitmap m.
Proof. reflexivity. Qed.

Lemma bitmap_flushed offs c seen n m :
  bitmap (flushed offs c seen n m) = <[n := true]> (bitmap m).
Proof.
  unfold flushed, bitmap, deref. fsimpl.
  replace (mem (after_write (self m))) with (mem (self m))
    by (unfold after_write; destruct (write_impl (self m)); reflexivity).
  rewrite lookup_insert_eq. reflexivity.
Qed.

Lemma mem_flushed offs c seen n m : mem (self (flushed offs c seen n m)) = mem (self m).
Proof.
  unfold flushed, after_write. fsimpl. destruct (write_impl (self m)); reflexivity.
Qed.

Lemma flushed_grows offs c seen n m : bitmap_grows m (flushed offs c seen n m).
Proof.
  unfold bitmap_grows. rewrite bitmap_flushed, mem_flushed, length_insert.
  repeat split. intros j Hj. destruct (decide (n = j)) as [->|Hne].
  - apply list_lookup_insert_eq. eapply lookup_lt_Some; eassumption.
  - rewrite list_lookup_insert_ne by assumption. assumption.
Qed.

Lemma logged_grows evs m : bitmap_grows m (logged evs m).
Proof. unfold bitmap_grows. rewrite bitmap_logged. auto. Qed.

Lemma flush_grows offs c : respects bitmap_grows (write_byte_flush offs c).
Proof.
  intros m r m' Hrun. destruct (Z.ltb_spec 0 (num (self m))) as [Hn|Hn].
  - destruct (flush_cases offs c m Hn)
      as [H|[(n & _ & H)|[(evs & H)|(seen & n & _ & H)]]];
      rewrite H in Hrun; injection Hrun as _ <-;
      auto using bitmap_grows_refl, flushed_grows, logged_grows.
  - rewrite flush_idle in Hrun by assumption. injection Hrun as _ <-.
    unfold bitmap_grows, bitmap. fsimpl. auto.
Qed.

Lemma modify_grows f :
  (forall s, mem (f s) = mem s) -> respects bitmap_grows (modify_self f).
Proof.
  intros Hf m r m' [= _ <-]. unfold bitmap_grows, bitmap. fsimpl.
  rewrite Hf. auto.
Qed.

#[local] Hint Resolve bitmap_grows_refl bitmap_grows_trans flush_grows : respects.

Lemma write_byte_grows offs val c : respects bitmap_grows (write_byte offs val c).
Proof. unfold write_byte. respects_steps; apply modify_grows; reflexivity. Qed.

(** Whatever is called, and however the call ends. *)
Lemma invoke_grows tc c : respects bitmap_grows (invoke tc c).
Proof.
  destruct (is_direct c) eqn:Hd.
  - intros m r m' Hrun. apply untracked_bitmap_grows.
    eapply direct_untracked; eassumption.
  - destruct c; try discriminate; cbn [invoke];
      auto using flush_grows, write_byte_grows.
Qed.

Lemma invoke_all_grows tc cs : respects bitmap_grows (invoke_all tc cs).
Proof.
  induction cs as [|c cs IH]; cbn [invoke_all].
  - apply respects_ret, bitmap_grows_refl.
  - apply respects_bind; [exact bitmap_grows_trans|apply invoke_grows|intros _; exact IH].
Qed.

(** ** The accumulator *)

Lemma byte_mask_range v : 0 <= Z.land v 255 < 256.
Proof.
  change 255 with (Z.ones 8). rewrite Z.land_ones by lia.
  apply Z.mod_pos_bound. lia.
Qed.

Lemma byte_mask_id b : is_byte b -> Z.land b 255 = b.
Proof.
  intros Hb. change 255 with (Z.ones 8). rewrite Z.land_ones by lia.
  apply Z.mod_small. exact Hb.
Qed.

Lemma collected_nonneg d v n : 0 <= d -> 0 <= n -> 0 <= Z.lor d (Z.shiftl (Z.land v 255) n).
Proof.
  intros Hd Hn. apply Z.lor_nonneg. split; [assumption|].
  apply Z.shiftl_nonneg. apply byte_mask_range.
Qed.

Lemma flushed_acc offs c seen n m :
  num (self (flushed offs c seen n m)) = 0
  /\ data (self (flushed offs c seen n m)) = 0
  /\ data_offs (self (flushed offs c seen n m)) = offs.
Proof. unfold flushed. fsimpl. auto. Qed.







(** ** The bitmap at construction *)

Lemma list_mul_singleton {A} (x : A) (n : Z) : list_mul [x] n = replicate (Z.to_nat n) x.
Proof.
  unfold list_mul. induction (Z.to_nat n) as [|k IH]; cbn; [reflexivity|].
  rewrite IH. reflexivity.
Qed.

Lemma list_mul_replicate {A} (x : A) (k : nat) (n : Z) :
  list_mul (replicate k x) n = replicate (Z.to_nat n * k) x.
Proof.
  unfold list_mul. induction (Z.to_nat n) as [|j IH]; cbn; [reflexivity|].
  rewrite IH, replicate_add. reflexivity.
Qed.

Lemma init_bitmap tc f base bm vw nes w :
  bitmap (__init__ tc f base bm vw nes w)
  = replicate (Z.to_nat (P_NUMGROUPS tc) * Z.to_nat (C_GROUP_OFFS tc)) false.
Proof.
  unfold bitmap, deref, __init__. fsimpl. rewrite lookup_insert_eq. cbn [default].
  rewrite list_mul_singleton, list_mul_replicate. reflexivity.
Qed.

(** C2, as the code has it: the bitmap of a new object is all [False],
    and it has one slot per byte address of the region, that is
    [C_GROUP_OFFS * P_NUMGROUPS] slots (a constant below zero counting as
    zero), not a quarter of that; no call changes its length. *)
Theorem bitmap_at_construction tc f base bm vw nes w :
  let m := __init__ tc f base bm vw nes w in
  (forall j b, bitmap m !! j = Some b -> b = false)
  /\ Z.of_nat (length (bitmap m))
     = Z.max 0 (C_GROUP_OFFS tc) * Z.max 0 (P_NUMGROUPS tc)
  /\ forall cs r m', invoke_all tc cs m = (r, m') -> length (bitmap m') = length (bitmap m).
Proof.
  cbn zeta. rewrite init_bitmap. repeat split.
  - intros j b Hj. apply lookup_replicate in Hj. tauto.
  - rewrite length_replicate. lia.
  - intros cs r m' Hrun. apply invoke_all_grows in Hrun.
    destruct Hrun as (_ & Hlen & _). rewrite Hlen, init_bitmap. reflexivity.
Qed.

(** C2 as stated fails: the small device has 64 * 2 = 128 slots, not
    64 * 2 / 4 = 32. *)
Lemma bitmap_length_not_per_word :
  Z.of_nat (length (bitmap m0)) = 128
  /\ Z.of_nat (length (bitmap m0))
     <> C_GROUP_OFFS small_map * P_NUMGROUPS small_map / 4.
Proof. split; [reflexivity|]. vm_compute. discriminate. Qed.

(** ** The top-mode guard *)

(** C7: [verify_top] does the same with [rv] set and not set, whatever
    the address, the value, the comment and the machine; when neither
    assertion fails, what it does is to write the one guard line for the
    address, the value and the comment. *)
Theorem verify_top_rv_irrelevant addr val comment m :
  verify_top addr val comment true m = verify_top addr val comment false m
  /\ (0 <= addr -> 0 <= val ->
      forall rv,
        verify_top addr val comment rv m
        = (Ok tt,
           logged [FileWrite (memfile (self m))
                     (guard_stmt (addr + apb_base (self m)) val comment)] m)).
Proof.
  split.
  - unfold verify_top. unfold mbind, M_bind, bind.
    destruct (assert_ (0 <=? val) m) as [[[]|e] m1]; [|reflexivity].
    destruct (assert_ (0 <=? addr) m1) as [[[]|e] m2]; [|reflexivity].
    destruct (get_self m2) as [[s|e] m3]; reflexivity.
  - intros Ha Hv rv. apply Z.leb_le in Ha, Hv. mred. rewrite Hv, Ha.
    destruct rv; reflexivity.
Qed.

(** ** Verification in block mode *)

Lemma verify_block_state addr val comment rv m :
  snd (verify_block addr val comment rv m) = m.
Proof.
  unfold verify_block. mred. destruct (0 <=? val); [|reflexivity].
  destruct (0 <=? addr); reflexivity.
Qed.

Lemma verify_block_negative addr val comment rv m :
  addr < 0 \/ val < 0 ->
  fst (verify_block addr val comment rv m) = Raise AssertionError.
Proof.
  intros Hneg. unfold verify_block. mred.
  destruct (Z.leb_spec 0 val); [|reflexivity].
  destruct (Z.leb_spec 0 addr); [lia|reflexivity].
Qed.

Lemma verify_run addr val c rv m :
  0 <= addr -> 0 <= val ->
  verify addr val c rv m = (Ok tt, logged (verify_events (self m) addr val c) m).
Proof.
  intros Ha Hv. apply Z.leb_le in Ha, Hv. unfold verify_events. mred.
  destruct m as [s [h o]]; fsimpl.
  destruct (verify_impl s); rewrite Hv, Ha; fsimpl.
  - rewrite app_nil_r. reflexivity.
  - destruct rv; reflexivity.
Qed.

(** C9, as the code has it: with an address and a value that are not
    negative, [verify] bound to the block backend returns and leaves the
    machine, its log included, as it was; with a negative one the
    assertion fails, still with the machine as it was.  A block-mode
    write logs its two records and no guard, also when [verify_writes]
    is set. *)
Theorem verify_block_noop addr val comment rv m :
  0 <= addr -> 0 <= val -> verify_impl (self m) = Block ->
  verify addr val comment rv m = (Ok tt, m)
  /\ verify_block addr val comment rv m = (Ok tt, m)
  /\ (forall a v c r,
        snd (verify_block a v c r m) = m
        /\ (a < 0 \/ v < 0 -> fst (verify_block a v c r m) = Raise AssertionError))
  /\ (write_impl (self m) = Block ->
      forall nv, exists m',
        write addr val comment nv m = (Ok tt, m')
        /\ out (env m')
           = out (env m)
             ++ [FileWrite (memfile (self m))
                   (mem_record (foffs (self m)) (addr + apb_base (self m)));
                 FileWrite (memfile (self m)) (mem_record (foffs (self m) + 1) val)]).
Proof.
  intros Ha Hv Hb.
  assert (Hvb : verify_block addr val comment rv m = (Ok tt, m)).
  { unfold verify_block. mred.
    destruct (Z.leb_spec 0 val); [|lia]. destruct (Z.leb_spec 0 addr); [|lia].
    reflexivity. }
  repeat split.
  - unfold verify, mbind, M_bind, bind, get_self. rewrite Hb. exact Hvb.
  - exact Hvb.
  - apply verify_block_state.
  - apply verify_block_negative.
  - intros Hw nv. eexists. split; [apply write_run; assumption|].
    unfold write_events. fsimpl. rewrite Hw. reflexivity.
Qed.

(** The same on the small device in block mode, with [verify_writes] set. *)
Lemma verify_block_noop_witness :
  let m := __init__ small_map 7%nat 0 true true false empty_world in
  verify 16 255 "" false m = (Ok tt, m).
Proof.
  cbn zeta.
  apply (verify_block_noop 16 255 "" false
           (__init__ small_map 7%nat 0 true true false empty_world));
    [lia | lia | reflexivity].
Defined.

(** C9 as stated fails: a negative address stops the call on its
    assertion. *)
Lemma verify_block_negative_address :
  let m := __init__ small_map 7%nat 0 true true false empty_world in
  verify (-4) 255 "" false m = (Raise AssertionError, m).
Proof. reflexivity. Qed.

(** ** Kernels *)

Lemma kern_addr_nonneg tc ch idx :
  0 <= C_GROUP_OFFS tc -> 0 <= C_MRAM_BASE tc -> 0 < P_NUMPRO tc ->
  0 <= ch -> 0 <= idx < MASK_WIDTH tc ->
  0 <= kern_addr tc ch idx.
Proof.
  intros Hg Hm Hp Hch Hidx. unfold kern_addr.
  assert (0 <= ch / P_NUMPRO tc) by (apply Z.div_pos; lia).
  assert (0 <= ch mod P_NUMPRO tc) by (apply Z.mod_pos_bound; lia).
  nia.
Qed.

Lemma kern_calls_run base comment m :
  0 <= base ->
  exists m', kern_calls base comment m = (Ok tt, m')
             /\ out (env m') = out (env m) ++ kern_log (self m) base comment.
Proof.
  intros Hb. unfold kern_calls, kern_log, mbind, M_bind, bind.
  destruct m as [s [h o]]. fsimpl.
  destruct (write_impl s) eqn:Hw, (verify_writes s) eqn:Hv, (verify_impl s) eqn:Hvi.
  all: do 4 (rewrite write_run by lia; cbv beta iota;
             unfold after_write, write_events; fsimpl; rewrite ?Hw, ?Hv; fsimpl).
  all: unfold get_self; fsimpl; rewrite ?Hv; cbv beta iota.
  all: repeat (rewrite verify_run by lia; cbv beta iota;
               unfold verify_events, logged; fsimpl; rewrite ?Hvi; fsimpl).
  all: eexists; (split; [reflexivity|]); fsimpl.
  all: rewrite <- ?app_assoc; cbn [app]; rewrite ?app_nil_r.
  all: replace (foffs s + 2 + 2 + 2 + 1) with (foffs s + 7) by lia.
  all: replace (foffs s + 2 + 2 + 2) with (foffs s + 6) by lia.
  all: replace (foffs s + 2 + 2 + 1) with (foffs s + 5) by lia.
  all: replace (foffs s + 2 + 2) with (foffs s + 4) by lia.
  all: replace (foffs s + 2 + 1) with (foffs s + 3) by lia.
  all: reflexivity.
Qed.

Lemma write_kern_calls tc ll ch idx m :
  P_NUMPRO tc <> 0 -> ch < MAX_CHANNELS tc -> idx < MASK_WIDTH tc ->
  write_kern tc ll ch idx [1; 2; 3; 4; 5; 6; 7; 8; 9] m
  = kern_calls (kern_addr tc ch idx) (kern_comment ll ch idx) m.
Proof.
  intros Hp Hch Hidx. unfold write_kern, floordiv, pymod.
  apply Z.ltb_lt in Hch, Hidx. apply Z.eqb_neq in Hp.
  rewrite Hch, Hidx, Hp. reflexivity.
Qed.

(** C5: for a channel and an index in bounds, on a memory map whose
    stride and mask base are not negative and which has processors,
    [write_kern] with the kernel [[1; ...; 9]] makes the four writes of
    [kern_calls], with [no_verify] set, to [base], [base + 4],
    [base + 8], [base + 12] with the values [0x00000001], [0x02030405],
    [0x06070809], [0x00000000], followed by the four verifies of the same
    pairs when [verify_writes] is set; the call returns, and the log
    grows by exactly the lines of these calls. *)
Theorem write_kern_packing tc ll ch idx m :
  0 <= C_GROUP_OFFS tc -> 0 <= C_MRAM_BASE tc -> 0 < P_NUMPRO tc ->
  0 <= ch < MAX_CHANNELS tc -> 0 <= idx < MASK_WIDTH tc ->
  let base := kern_addr tc ch idx in
  let k := [1; 2; 3; 4; 5; 6; 7; 8; 9] in
  write_kern tc ll ch idx k m = kern_calls base (kern_comment ll ch idx) m
  /\ exists m',
       write_kern tc ll ch idx k m = (Ok tt, m')
       /\ out (env m') = out (env m) ++ kern_log (self m) base (kern_comment ll ch idx).
Proof.
  intros Hg Hm Hp Hch Hidx base k. subst base k.
  assert (Hcalls := write_kern_calls tc ll ch idx m).
  rewrite Hcalls by lia. split; [reflexivity|].
  apply kern_calls_run. apply kern_addr_nonneg; lia.
Qed.

(** On the small device, channel 5 and index 1, in top mode with
    [verify_writes] set: processor 1 of group 1, at 64 + 32 + 16. *)
Lemma write_kern_packing_witness :
  let m := __init__ small_map 7%nat 0 false true false empty_world in
  exists m',
    write_kern small_map 0 5 1 [1; 2; 3; 4; 5; 6; 7; 8; 9] m = (Ok tt, m')
    /\ out (env m')
       = [FileWrite 7%nat (store_stmt 112 1 " // Layer 0: processor 5 kernel #1");
          FileWrite 7%nat (store_stmt 116 0x02030405 "");
          FileWrite 7%nat (store_stmt 120 0x06070809 "");
          FileWrite 7%nat (store_stmt 124 0 "");
          FileWrite 7%nat (guard_stmt 112 1 "");
          FileWrite 7%nat (guard_stmt 116 0x02030405 "");
          FileWrite 7%nat (guard_stmt 120 0x06070809 "");
          FileWrite 7%nat (guard_stmt 124 0 "")].
Proof.
  cbn zeta.
  destruct (write_kern_packing small_map 0 5 1
              (__init__ small_map 7%nat 0 false true false empty_world))
    as [_ (m' & Hrun & Hout)]; cbn; try lia.
  exists m'. split; [exact Hrun|]. rewrite Hout. reflexivity.
Defined.

(** ** Word packing *)

Lemma pack_le_range b0 b1 b2 b3 :
  is_byte b0 -> is_byte b1 -> is_byte b2 -> is_byte b3 ->
  0 <= pack_le b0 b1 b2 b3 < 2 ^ 32.
Proof.
  unfold is_byte, pack_le. intros H0 H1 H2 H3.
  assert (Hlt : forall a n, 0 <= a -> 0 <= n -> (a < 2 ^ n <-> forall i, n <= i -> Z.testbit a i = false)).
  { intros a n Ha Hn. split.
    - intros Hlt i Hi. destruct (Z.eq_dec a 0) as [->|Hnz]; [apply Z.bits_0|].
      apply Z.bits_above_log2; [lia|].
      assert (Z.log2 a < n) by (apply Z.log2_lt_pow2; lia). lia.
    - intros Hbits. destruct (Z.eq_dec a 0) as [->|Hnz]; [apply Z.pow_pos_nonneg; lia|].
      apply Z.log2_lt_pow2; [lia|].
      destruct (Z.lt_ge_cases (Z.log2 a) n) as [|Hge]; [assumption|].
      specialize (Hbits (Z.log2 a) Hge). rewrite Z.bit_log2 in Hbits by lia.
      discriminate. }
  assert (Hnn : 0 <= Z.lor (Z.lor (Z.lor b0 (Z.shiftl b1 8)) (Z.shiftl b2 16)) (Z.shiftl b3 24)).
  { apply Z.lor_nonneg; split; [|apply Z.shiftl_nonneg; lia].
    apply Z.lor_nonneg; split; [|apply Z.shiftl_nonneg; lia].
    apply Z.lor_nonneg; split; [lia|apply Z.shiftl_nonneg; lia]. }
  split; [exact Hnn|].
  apply Hlt; [exact Hnn|lia|].
  intros i Hi. rewrite !Z.lor_spec, !Z.shiftl_spec by lia.
  rewrite (proj1 (Hlt b0 8 ltac:(lia) ltac:(lia)) ltac:(lia) i) by lia.
  rewrite (proj1 (Hlt b1 8 ltac:(lia) ltac:(lia)) ltac:(lia) (i - 8)) by lia.
  rewrite (proj1 (Hlt b2 8 ltac:(lia) ltac:(lia)) ltac:(lia) (i - 16)) by lia.
  rewrite (proj1 (Hlt b3 8 ltac:(lia) ltac:(lia)) ltac:(lia) (i - 24)) by lia.
  reflexivity.
Qed.

(** Four bytes in a row into an empty accumulator leave a full one. *)
Lemma four_bytes_collected o b0 b1 b2 b3 c0 c1 c2 c3 m :
  num (self m) = 0 -> data (self m) = 0 ->
  is_byte b0 -> is_byte b1 -> is_byte b2 -> is_byte b3 ->
  (write_byte o b0 c0;; write_byte (o + 1) b1 c1;;
   write_byte (o + 2) b2 c2;; write_byte (o + 3) b3 c3) m
  = write_byte_flush (o + 4) c3
      (mkMachine (set_data_offs (o + 4) (set_num 4 (set_data (pack_le b0 b1 b2 b3) (self m))))
                 (env m)).
Proof.
  intros Hn Hd H0 H1 H2 H3. unfold mbind, M_bind, bind.
  rewrite write_byte_collect by (rewrite ?Hn; auto; lia).
  rewrite write_byte_collect by (fsimpl; rewrite ?Hn; auto; lia).
  rewrite write_byte_collect by (fsimpl; rewrite ?Hn; auto; lia).
  rewrite write_byte_fourth by (fsimpl; rewrite ?Hn; auto; lia).
  fsimpl. rewrite Hn, Hd, !byte_mask_id by assumption.
  replace (o + 3 + 1) with (o + 4) by lia.
  unfold pack_le. change (8 * 0) with 0. change (8 * (0 + 1)) with 8.
  change (8 * (0 + 1 + 1)) with 16.
  rewrite Z.shiftl_0_r, Z.lor_0_l. destruct (self m); reflexivity.
Qed.

(** C3, as the code has it: four [write_byte] calls at [o .. o+3] with
    byte values, into an empty accumulator, when [o] is not negative and
    its slot is inside the bitmap and either unmarked or marked with
    [no_error_stop] set: the calls return, and the log grows by exactly
    one backend write, of the little-endian word to [o] with the comment
    of the fourth call (after the overwrite report, if the slot was
    marked).  The slot is marked and the accumulator is empty again. *)
Theorem word_packing o b0 b1 b2 b3 c0 c1 c2 c3 m seen :
  num (self m) = 0 -> data (self m) = 0 ->
  is_byte b0 -> is_byte b1 -> is_byte b2 -> is_byte b3 ->
  0 <= o -> slot_of o < Z.of_nat (length (bitmap m)) ->
  bitmap m !! Z.to_nat (slot_of o) = Some seen ->
  seen = false \/ no_error_stop (self m) = true ->
  exists m',
    (write_byte o b0 c0;; write_byte (o + 1) b1 c1;;
     write_byte (o + 2) b2 c2;; write_byte (o + 3) b3 c3) m = (Ok tt, m')
    /\ out (env m')
       = out (env m) ++ (if seen then [overwrite_report o] else [])
         ++ write_events (self m) o (pack_le b0 b1 b2 b3) c3 false
    /\ 0 <= pack_le b0 b1 b2 b3 < 2 ^ 32
    /\ bitmap m' = <[Z.to_nat (slot_of o) := true]> (bitmap m)
    /\ num (self m') = 0 /\ data (self m') = 0 /\ data_offs (self m') = o + 4.
Proof.
  intros Hn Hd H0 H1 H2 H3 Ho Hslot Hseen Hgo.
  pose proof (pack_le_range b0 b1 b2 b3 H0 H1 H2 H3) as Hrange.
  rewrite four_bytes_collected by assumption.
  set (m4 := mkMachine _ _).
  assert (Hp : pending_addr (self m4) = o) by (unfold pending_addr, m4; fsimpl; lia).
  assert (Hb : bitmap m4 = bitmap m) by reflexivity.
  rewrite (flush_run (o + 4) c3 m4 seen (Z.to_nat (slot_of o))).
  - eexists. split; [reflexivity|].
    rewrite bitmap_flushed, Hb. unfold flushed. rewrite Hp. fsimpl.
    repeat split; auto; lia.
  - unfold m4. fsimpl. lia.
  - rewrite Hp, Hb. apply slot_index; assumption.
  - rewrite Hb. exact Hseen.
  - exact Hgo.
  - lia.
  - unfold m4. fsimpl. lia.
Qed.

(** On the fresh small device, at offset 8. *)
Lemma word_packing_witness :
  exists m',
    (write_byte 8 0x11 "";; write_byte 9 0x22 "";;
     write_byte 10 0x33 "";; write_byte 11 0x44 " // w") m0 = (Ok tt, m')
    /\ out (env m') = [FileWrite 7%nat (store_stmt 8 0x44332211 " // w")].
Proof.
  destruct (word_packing 8 0x11 0x22 0x33 0x44 "" "" "" " // w" m0 false)
    as (m' & Hrun & Hout & _);
    [reflexivity | reflexivity | unfold is_byte; lia | unfold is_byte; lia
    | unfold is_byte; lia | unfold is_byte; lia | lia | reflexivity | reflexivity
    | left; reflexivity | ].
  exists m'. split; [exact Hrun|]. rewrite Hout. reflexivity.
Defined.

(** C3 as stated fails: with slot 0 marked and [no_error_stop] not set,
    four bytes at offsets 0 to 3 into the empty accumulator end in
    [sys.exit(1)], and only the report was logged: no backend write. *)
Lemma word_packing_stops_on_marked_slot :
  let four_bytes :=
    write_byte 0 5 "";; write_byte 1 6 "";; write_byte 2 7 "";; write_byte 3 8 "" in
  num (self m_marked) = 0 /\ data (self m_marked) = 0 /\ data_offs (self m_marked) = 0
  /\ fst (four_bytes m_marked) = Raise (SystemExit 1)
  /\ out (env (snd (four_bytes m_marked)))
     = out (env m_marked) ++ [Print "Overwriting location 00000000"].
Proof.
  cbn zeta.
  split; [vm_compute; reflexivity|].
  split; [vm_compute; reflexivity|].
  split; [vm_compute; reflexivity|].
  split; vm_compute; reflexivity.
Qed.

(** ** Discontinuity *)

(** C4, as the code has it: a byte at [o] into an empty accumulator, then
    a byte at [o + 5], when [o] is not negative and its slot is inside
    the bitmap and either unmarked or marked with [no_error_stop] set:
    the second call first sends the partial word, the first byte in the
    low position and zeros above, to [o] with an empty comment, marks the
    slot, and then holds the second byte alone, expecting [o + 6]. *)
Theorem discontinuity_flush o b b' c c' m seen :
  num (self m) = 0 -> data (self m) = 0 ->
  is_byte b -> is_byte b' ->
  0 <= o -> slot_of o < Z.of_nat (length (bitmap m)) ->
  bitmap m !! Z.to_nat (slot_of o) = Some seen ->
  seen = false \/ no_error_stop (self m) = true ->
  exists m',
    (write_byte o b c;; write_byte (o + 5) b' c') m = (Ok tt, m')
    /\ out (env m')
       = out (env m) ++ (if seen then [overwrite_report o] else [])
         ++ write_events (self m) o (pack_le b 0 0 0) "" false
    /\ pack_le b 0 0 0 = b
    /\ bitmap m' = <[Z.to_nat (slot_of o) := true]> (bitmap m)
    /\ num (self m') = 1 /\ data (self m') = b' /\ data_offs (self m') = o + 6.
Proof.
  intros Hn Hd Hb Hb' Ho Hslot Hseen Hgo.
  assert (Hpack : pack_le b 0 0 0 = b).
  { unfold pack_le. rewrite !Z.shiftl_0_l, !Z.lor_0_r. reflexivity. }
  unfold mbind, M_bind, bind.
  rewrite write_byte_collect by (rewrite ?Hn; auto; lia).
  set (m1 := mkMachine _ _).
  assert (Hd1 : data (self m1) = b).
  { unfold m1. fsimpl. rewrite Hn, Hd, byte_mask_id by assumption.
    change (8 * 0) with 0. rewrite Z.shiftl_0_r, Z.lor_0_l. reflexivity. }
  assert (Hn1 : num (self m1) = 1) by (unfold m1; fsimpl; lia).
  assert (Hp : pending_addr (self m1) = o) by (unfold pending_addr, m1; fsimpl; lia).
  assert (Hbm : bitmap m1 = bitmap m) by reflexivity.
  rewrite write_byte_discontinuous by (unfold m1; fsimpl; lia).
  rewrite (flush_run (o + 5) "" m1 seen (Z.to_nat (slot_of o)));
    [ | lia | rewrite Hp, Hbm; apply slot_index; assumption | rewrite Hbm; exact Hseen
      | exact Hgo | lia | rewrite Hd1; unfold is_byte in Hb; lia ].
  rewrite write_byte_collect by (unfold flushed; fsimpl; auto; lia).
  eexists. split; [reflexivity|].
  destruct (flushed_acc (o + 5) "" seen (Z.to_nat (slot_of o)) m1) as (Hfn & Hfd & Hfo).
  pose proof (bitmap_flushed (o + 5) "" seen (Z.to_nat (slot_of o)) m1) as Hfb.
  assert (Hfout : out (env (flushed (o + 5) "" seen (Z.to_nat (slot_of o)) m1))
                  = out (env m) ++ (if seen then [overwrite_report o] else [])
                    ++ write_events (self m) o (pack_le b 0 0 0) "" false).
  { unfold flushed. fsimpl. rewrite Hp, Hd1, Hpack. reflexivity. }
  set (F := flushed _ _ _ _ _) in *.
  fsimpl. rewrite Hfn, Hfd.
  split; [exact Hfout|]. split; [exact Hpack|].
  split; [change (bitmap F = <[Z.to_nat (slot_of o):=true]> (bitmap m));
          rewrite Hfb, Hbm; reflexivity|].
  split; [reflexivity|].
  split; [|lia].
  rewrite byte_mask_id by assumption. change (8 * 0) with 0.
  rewrite Z.shiftl_0_r, Z.lor_0_l. reflexivity.
Qed.

(** On the fresh small device, at offset 8. *)
Lemma discontinuity_flush_witness :
  exists m',
    (write_byte 8 0xab " // a";; write_byte 13 0xcd " // b") m0 = (Ok tt, m')
    /\ out (env m') = [FileWrite 7%nat (store_stmt 8 0x000000ab "")]
    /\ num (self m') = 1 /\ data (self m') = 0xcd /\ data_offs (self m') = 14.
Proof.
  destruct (discontinuity_flush 8 0xab 0xcd " // a" " // b" m0 false)
    as (m' & Hrun & Hout & _ & _ & Hnum & Hdata & Hoffs);
    [reflexivity | reflexivity | unfold is_byte; lia | unfold is_byte; lia
    | lia | reflexivity | reflexivity | left; reflexivity | ].
  exists m'. split; [exact Hrun|]. rewrite Hout. repeat split; assumption.
Defined.

(** C4 as stated fails: with slot 0 marked and [no_error_stop] not set,
    a byte at offset 0 and then one at offset 5 end in [sys.exit(1)], and
    only the report was logged: no partial word went out. *)
Lemma discontinuity_stops_on_marked_slot :
  let two_bytes := write_byte 0 5 "";; write_byte 5 6 "" in
  num (self m_marked) = 0 /\ data (self m_marked) = 0 /\ data_offs (self m_marked) = 0
  /\ fst (two_bytes m_marked) = Raise (SystemExit 1)
  /\ out (env (snd (two_bytes m_marked)))
     = out (env m_marked) ++ [Print "Overwriting location 00000000"].
Proof.
  cbn zeta.
  split; [vm_compute; reflexivity|].
  split; [vm_compute; reflexivity|].
  split; [vm_compute; reflexivity|].
  split; vm_compute; reflexivity.
Qed.

(** ** The flush of pending bytes *)

Lemma py_index_nonneg len i n : 0 <= i -> py_index len i = Some n -> n = Z.to_nat i.
Proof.
  intros Hi. unfold py_index.
  destruct (Z.leb_spec 0 i); [|lia].
  destruct (Z.ltb_spec i len); cbn [andb].
  - intros [= <-]. reflexivity.
  - destruct (Z.leb_spec (- len) i), (Z.ltb_spec i 0); cbn [andb];
      try discriminate; lia.
Qed.

Lemma slot_nonneg w : 0 <= w <-> 0 <= slot_of w.
Proof. unfold slot_of. symmetry. apply Z.shiftr_nonneg. Qed.

(** C6, as the code has it: a flush with bytes pending that gets through
    sent the word to [data_offs - num], which is not negative but need
    not be a multiple of four; the bitmap was checked at the slot of that
    address, [(data_offs - num) >> 2], and is marked there; count and
    accumulator are zero and the expected offset is the argument.  The
    check and the write come before the reset: a flush that is stopped
    leaves count, accumulator and bitmap as they were. *)
Theorem flush_pending offs c m :
  0 < num (self m) ->
  let w := data_offs (self m) - num (self m) in
  (forall m', write_byte_flush offs c m = (Ok tt, m') ->
     exists seen,
       0 <= w
       /\ bitmap m !! Z.to_nat (slot_of w) = Some seen
       /\ (seen = true -> no_error_stop (self m) = true)
       /\ out (env m')
          = out (env m) ++ (if seen then [overwrite_report w] else [])
            ++ write_events (self m) w (data (self m)) c false
       /\ bitmap m' = <[Z.to_nat (slot_of w) := true]> (bitmap m)
       /\ num (self m') = 0 /\ data (self m') = 0 /\ data_offs (self m') = offs)
  /\ (forall e m', write_byte_flush offs c m = (Raise e, m') ->
        num (self m') = num (self m) /\ data (self m') = data (self m)
        /\ bitmap m' = bitmap m).
Proof.
  intros Hn w. split.
  - intros m' Hrun.
    destruct (flush_ok_inv _ _ _ _ Hn Hrun) as (seen & n & Hi & Hs & Hgo & Ha & Hd & ->).
    fold (pending_addr (self m)) in w. subst w.
    apply py_index_nonneg in Hi; [|apply (proj1 (slot_nonneg _)); assumption]. subst n.
    exists seen. rewrite bitmap_flushed. unfold flushed. fsimpl.
    repeat split; auto. destruct Hgo as [->|Hgo]; [discriminate|auto].
  - intros e m' Hrun.
    destruct (flush_cases offs c m Hn)
      as [H|[(n & _ & H)|[(evs & H)|(seen & n & _ & H)]]];
      rewrite H in Hrun; try discriminate; injection Hrun as _ <-; auto.
Qed.

(** The two pending bytes of [m_pending] go to address 8 as [0x0201]. *)
Lemma flush_pending_witness :
  exists m',
    write_byte_flush 12 " // c" m_pending = (Ok tt, m')
    /\ out (env m') = [FileWrite 7%nat (store_stmt 8 0x00000201 " // c")]
    /\ bitmap m' = <[2%nat := true]> (bitmap m_pending)
    /\ num (self m') = 0 /\ data (self m') = 0 /\ data_offs (self m') = 12.
Proof.
  assert (Hrun : write_byte_flush 12 " // c" m_pending
                 = (Ok tt, snd (write_byte_flush 12 " // c" m_pending)))
    by (vm_compute; reflexivity).
  assert (Hn : 0 < num (self m_pending)) by (vm_compute; reflexivity).
  destruct (flush_pending 12 " // c" m_pending Hn) as [Hok _].
  destruct (Hok _ Hrun) as (seen & _ & Hs & _ & Hout & Hb & Hnum & Hdata & Hoffs).
  assert (seen = false) as -> by (vm_compute in Hs; congruence).
  eexists. split; [exact Hrun|]. rewrite Hout, Hb.
  repeat split; assumption.
Defined.

(** C6 as stated fails: the byte collected at offset 1 is flushed to
    address 1, which is not word-aligned. *)
Lemma flush_address_unaligned :
  0 < num (self m_odd)
  /\ data_offs (self m_odd) - num (self m_odd) = 1
  /\ 1 mod 4 <> 0
  /\ fst (write_byte_flush 0 "" m_odd) = Ok tt
  /\ out (env (snd (write_byte_flush 0 "" m_odd)))
     = [FileWrite 7%nat (store_stmt 1 7 "")].
Proof.
  split; [vm_compute; reflexivity|].
  split; [vm_compute; reflexivity|].
  split; [vm_compute; discriminate|].
  split; vm_compute; reflexivity.
Qed.

(** ** Overwrite detection *)




(** ** The count of pending bytes *)




(** ** The reference to the bitmap *)

Lemma get_mem_run m : get_mem m = (Ok (mem (self m)), m).
Proof. reflexivity. Qed.

(** C10: [get_mem] returns the reference the object holds and changes
    nothing; it is the same reference before and after a flush, and after
    any calls that follow, however they end.  Right after a flush that
    sent pending bytes to [w], the list behind that reference holds
    [True] at index [w >> 2], and every other slot is as it was before
    the flush, so a slot that was [False] and was not written is still
    [False]. *)
Theorem get_mem_live tc offs c m m' :
  0 < num (self m) ->
  write_byte_flush offs c m = (Ok tt, m') ->
  let w := data_offs (self m) - num (self m) in
  exists r,
    get_mem m = (Ok r, m) /\ get_mem m' = (Ok r, m')
    /\ deref (heap (env m')) r !! Z.to_nat (Z.shiftr w 2) = Some true
    /\ (forall j, j <> Z.to_nat (Z.shiftr w 2) ->
          deref (heap (env m')) r !! j = deref (heap (env m)) r !! j)
    /\ (forall cs res m'', invoke_all tc cs m' = (res, m'') -> get_mem m'' = (Ok r, m'')).
Proof.
  intros Hn Hrun w.
  destruct (flush_ok_inv _ _ _ _ Hn Hrun) as (seen & n & Hi & Hs & _ & Ha & _ & ->).
  pose proof (py_index_nonneg _ _ _ (proj1 (slot_nonneg _) Ha) Hi) as Hn'.
  change (Z.shiftr w 2) with (slot_of (pending_addr (self m))). rewrite <- Hn'.
  exists (mem (self m)). rewrite !get_mem_run, mem_flushed.
  pose proof (bitmap_flushed offs c seen n m) as Hb.
  unfold bitmap in Hb. rewrite mem_flushed in Hb. rewrite Hb.
  split; [reflexivity|]. split; [reflexivity|]. split; [|split].
  - apply list_lookup_insert_eq. eapply lookup_lt_Some; eassumption.
  - intros j Hj. apply list_lookup_insert_ne. congruence.
  - intros cs res m'' Hcs. apply invoke_all_grows in Hcs.
    destruct Hcs as (Hmem & _). rewrite get_mem_run, Hmem, mem_flushed. reflexivity.
Qed.

(** The reference of the fresh small device is list object 0; after the
    two pending bytes went to address 8, slot 2 of that list is [True]. *)
Lemma get_mem_live_witness :
  exists m',
    write_byte_flush 12 "" m_pending = (Ok tt, m')
    /\ get_mem m0 = (Ok 0%nat, m0) /\ get_mem m' = (Ok 0%nat, m')
    /\ deref (heap (env m')) 0%nat !! 2%nat = Some true
    /\ deref (heap (env m')) 0%nat !! 3%nat = Some false.
Proof.
  assert (Hrun : write_byte_flush 12 "" m_pending
                 = (Ok tt, snd (write_byte_flush 12 "" m_pending)))
    by (vm_compute; reflexivity).
  assert (Hn : 0 < num (self m_pending)) by (vm_compute; reflexivity).
  destruct (get_mem_live small_map 12 "" m_pending _ Hn Hrun)
    as (r & Hbefore & Hafter & Hslot & Hrest & _).
  assert (r = 0%nat) as -> by (vm_compute in Hbefore; congruence).
  eexists. split; [exact Hrun|]. split; [reflexivity|]. split; [exact Hafter|].
  split; [exact Hslot|].
  rewrite (Hrest 3%nat) by (vm_compute; discriminate). vm_compute. reflexivity.
Defined.

(** * Further properties of the class *)

(** ** The contract of a backend write *)

(** X1: [self.write] returns exactly when neither the address nor the
    value is negative.  The check is on the address as given, before the
    base is added.  When it fails, the exception is the assertion's and
    the machine, its log included, is as it was. *)
Theorem write_returns_iff addr val c nv m :
  (fst (write addr val c nv m) = Ok tt <-> 0 <= addr /\ 0 <= val)
  /\ (forall e, fst (write addr val c nv m) = Raise e ->
        e = AssertionError /\ snd (write addr val c nv m) = m).
Proof.
  destruct (Z.leb_spec 0 addr) as [Ha|Ha]; destruct (Z.leb_spec 0 val) as [Hv|Hv];
    try (rewrite write_raise by lia; cbn [fst snd]; split;
         [split; [discriminate|lia] | intros e [= <-]; auto]).
  rewrite write_run by assumption. cbn [fst snd]. split; [tauto|discriminate].
Qed.

(** ** Flushing with nothing pending *)

(** The four situations a flush of pending bytes can find; which one it
    is does not depend on the arguments of the flush. *)
Lemma flush_conditions m :
  py_index (Z.of_nat (length (bitmap m))) (slot_of (pending_addr (self m))) = None
  \/ (exists n,
        py_index (Z.of_nat (length (bitmap m))) (slot_of (pending_addr (self m))) = Some n
        /\ bitmap m !! n = Some true /\ no_error_stop (self m) = false)
  \/ (exists seen n,
        py_index (Z.of_nat (length (bitmap m))) (slot_of (pending_addr (self m))) = Some n
        /\ bitmap m !! n = Some seen
        /\ (seen = false \/ no_error_stop (self m) = true)
        /\ ~ (0 <= pending_addr (self m) /\ 0 <= data (self m)))
  \/ (exists seen n,
        py_index (Z.of_nat (length (bitmap m))) (slot_of (pending_addr (self m))) = Some n
        /\ bitmap m !! n = Some seen
        /\ (seen = false \/ no_error_stop (self m) = true)
        /\ 0 <= pending_addr (self m) /\ 0 <= data (self m)).
Proof.
  destruct (py_index (Z.of_nat (length (bitmap m))) (slot_of (pending_addr (self m))))
    as [n|] eqn:Hi; [|left; reflexivity].
  destruct (py_index_lookup _ _ _ Hi) as [seen Hs].
  assert (Hcases : (seen = true /\ no_error_stop (self m) = false)
                   \/ seen = false \/ no_error_stop (self m) = true)
    by (destruct seen, (no_error_stop (self m)); auto).
  destruct Hcases as [[-> Hnes]|Hgo]; [right; left; eauto|].
  destruct (Z.leb_spec 0 (pending_addr (self m)));
    destruct (Z.leb_spec 0 (data (self m)));
    try (right; right; right; exists seen, n; auto; fail);
    right; right; left; exists seen, n; repeat split; auto; lia.
Qed.

(** X4: a flush right after a flush only moves the expected offset: the
    two together do what one flush with the second offset and the first
    comment does, whatever was pending, and however it ends. *)
Theorem flush_twice offs1 c1 offs2 c2 m :
  (write_byte_flush offs1 c1;; write_byte_flush offs2 c2) m
  = write_byte_flush offs2 c1 m.
Proof.
  unfold mbind, M_bind, bind.
  destruct (Z.ltb_spec 0 (num (self m))) as [Hn|Hn].
  - destruct (flush_conditions m)
      as [Hi|[(n & Hi & Hs & Hnes)|[(seen & n & Hi & Hs & Hgo & Hneg)
                                   |(seen & n & Hi & Hs & Hgo & Ha & Hd)]]].
    + rewrite (flush_index_error offs1), (flush_index_error offs2) by assumption.
      reflexivity.
    + rewrite (flush_stop offs1 c1 m n), (flush_stop offs2 c1 m n) by assumption.
      reflexivity.
    + rewrite (flush_assert offs1 c1 m seen n), (flush_assert offs2 c1 m seen n)
        by assumption.
      reflexivity.
    + rewrite (flush_run offs1 c1 m seen n), (flush_run offs2 c1 m seen n) by assumption.
      rewrite flush_idle by (unfold flushed; fsimpl; lia). reflexivity.
  - rewrite (flush_idle offs1 c1 m), (flush_idle offs2 c1 m) by assumption.
    rewrite flush_idle by (fsimpl; assumption). reflexivity.
Qed.

(** ** Values outside the byte range *)

Lemma byte_mask_mod v : Z.land v 255 = v mod 256.
Proof. change 255 with (Z.ones 8). rewrite Z.land_ones by lia. reflexivity. Qed.

(** X8: [write_byte] keeps the low eight bits of the value it is given,
    so a value and its residue modulo 256 (a signed byte and its two's
    complement) are collected alike. *)
Theorem write_byte_truncates offs val c m :
  write_byte offs val c m = write_byte offs (val mod 256) c m.
Proof.
  unfold write_byte.
  replace (Z.land (val mod 256) 255) with (Z.land val 255); [reflexivity|].
  rewrite !byte_mask_mod. rewrite Z.mod_mod by lia. reflexivity.
Qed.

(** ** Changing the sink *)

(** X3: bytes that are pending when the sink is changed are not lost and
    not written to the old sink: the next flush sends their word to the
    new file object, with the line counter starting again at 0. *)
Theorem pending_bytes_follow_sink o b c f offs c' m :
  num (self m) = 0 -> data (self m) = 0 -> is_byte b ->
  0 <= o -> slot_of o < Z.of_nat (length (bitmap m)) ->
  bitmap m !! Z.to_nat (slot_of o) = Some false ->
  exists m',
    (write_byte o b c;; set_memfile f;; write_byte_flush offs c') m = (Ok tt, m')
    /\ out (env m')
       = out (env m)
         ++ write_events (set_foffs 0 (set_memfile_field f (self m))) o b c' false
    /\ memfile (self m') = f.
Proof.
  intros Hn Hd Hb Ho Hslot Hfree. unfold mbind, M_bind, bind.
  rewrite write_byte_collect by (rewrite ?Hn; auto; lia).
  unfold set_memfile, modify_self, mbind, M_bind, bind. cbv beta iota. fsimpl.
  set (m1 := mkMachine _ _).
  assert (Hd1 : data (self m1) = b).
  { unfold m1. fsimpl. rewrite Hn, Hd, byte_mask_id by assumption.
    change (8 * 0) with 0. rewrite Z.shiftl_0_r, Z.lor_0_l. reflexivity. }
  assert (Hp : pending_addr (self m1) = o) by (unfold pending_addr, m1; fsimpl; lia).
  assert (Hbm : bitmap m1 = bitmap m) by reflexivity.
  rewrite (flush_run offs c' m1 false (Z.to_nat (slot_of o)));
    [ | unfold m1; fsimpl; lia | rewrite Hp, Hbm; apply slot_index; assumption
      | rewrite Hbm; exact Hfree | left; reflexivity | lia
      | rewrite Hd1; unfold is_byte in Hb; lia ].
  eexists. split; [reflexivity|]. unfold flushed. fsimpl. rewrite Hp, Hd1.
  split; [reflexivity|]. unfold after_write, m1. fsimpl.
  destruct (write_impl (self m)); reflexivity.
Qed.

Lemma pending_bytes_follow_sink_witness :
  exists m',
    (write_byte 8 0xab "";; set_memfile 9%nat;; write_byte_flush 0 " // late") m0
    = (Ok tt, m')
    /\ out (env m') = [FileWrite 9%nat (store_stmt 8 0xab " // late")].
Proof.
  destruct (pending_bytes_follow_sink 8 0xab "" 9%nat 0 " // late" m0)
    as (m' & Hrun & Hout & _);
    [reflexivity | reflexivity | unfold is_byte; lia | lia | reflexivity | reflexivity | ].
  exists m'. split; [exact Hrun|]. rewrite Hout. reflexivity.
Defined.

(** ** Bytes of one word that do not follow each other *)

Lemma slot_of_div w : slot_of w = w / 4.
Proof. unfold slot_of. rewrite Z.shiftr_div_pow2 by lia. reflexivity. Qed.

(** X5: the overwrite check is per word, not per byte.  Two bytes of the
    same word that are written with a gap between them (here at [o] and
    [o + 2], [o] aligned) go out as two partial words to the same slot:
    the flush of the second one logs the report for [o + 2], and stops
    the process unless [no_error_stop] is set. *)
Theorem gap_in_word_reported o b b' c c' offs c'' m :
  num (self m) = 0 -> data (self m) = 0 -> is_byte b -> is_byte b' ->
  0 <= o -> o mod 4 = 0 -> slot_of o < Z.of_nat (length (bitmap m)) ->
  bitmap m !! Z.to_nat (slot_of o) = Some false ->
  exists m' rest,
    (write_byte o b c;; write_byte (o + 2) b' c';; write_byte_flush offs c'') m
    = (if no_error_stop (self m) then Ok tt else Raise (SystemExit 1), m')
    /\ out (env m')
       = out (env m) ++ write_events (self m) o b "" false
         ++ [overwrite_report (o + 2)] ++ rest
    /\ (no_error_stop (self m) = false -> rest = []).
Proof.
  intros Hn Hd Hb Hb' Ho Hal Hslot Hfree. unfold mbind, M_bind, bind.
  rewrite write_byte_collect by (rewrite ?Hn; auto; lia).
  set (m1 := mkMachine _ _).
  assert (Hd1 : data (self m1) = b).
  { unfold m1. fsimpl. rewrite Hn, Hd, byte_mask_id by assumption.
    change (8 * 0) with 0. rewrite Z.shiftl_0_r, Z.lor_0_l. reflexivity. }
  assert (Hp : pending_addr (self m1) = o) by (unfold pending_addr, m1; fsimpl; lia).
  assert (Hbm : bitmap m1 = bitmap m) by reflexivity.
  rewrite write_byte_discontinuous by (unfold m1; fsimpl; lia).
  rewrite (flush_run (o + 2) "" m1 false (Z.to_nat (slot_of o)));
    [ | unfold m1; fsimpl; lia | rewrite Hp, Hbm; apply slot_index; assumption
      | rewrite Hbm; exact Hfree | left; reflexivity | lia
      | rewrite Hd1; unfold is_byte in Hb; lia ].
  rewrite write_byte_collect by (unfold flushed; fsimpl; auto; lia).
  set (F := flushed _ _ _ _ m1).
  set (m2 := mkMachine _ (env F)).
  assert (Hn2 : num (self m2) = 1) by (unfold m2, F, flushed; fsimpl; lia).
  assert (Hd2 : data (self m2) = b').
  { unfold m2, F, flushed. fsimpl. rewrite byte_mask_id by assumption.
    change (8 * 0) with 0. rewrite Z.shiftl_0_r, Z.lor_0_l. reflexivity. }
  assert (Hp2 : pending_addr (self m2) = o + 2)
    by (unfold pending_addr, m2, F, flushed; fsimpl; lia).
  assert (Hbm2 : bitmap m2 = <[Z.to_nat (slot_of o) := true]> (bitmap m)).
  { change (bitmap m2) with (bitmap F). unfold F. rewrite bitmap_flushed, Hbm.
    reflexivity. }
  assert (Hsl : slot_of (o + 2) = slot_of o).
  { rewrite !slot_of_div. pose proof (Z.div_mod o 4 ltac:(lia)) as E.
    rewrite Hal in E. replace (o + 2) with (o / 4 * 4 + 2) by lia.
    rewrite Z.div_add_l by lia. change (2 / 4) with 0. lia. }
  assert (Hnes : no_error_stop (self m2) = no_error_stop (self m)).
  { unfold m2, F, flushed, after_write, m1. fsimpl.
    destruct (write_impl (self m)); reflexivity. }
  assert (Hout2 : out (env m2) = out (env m) ++ write_events (self m) o b "" false).
  { unfold m2, F, flushed. fsimpl. rewrite Hp, Hd1. reflexivity. }
  assert (Hi2 : py_index (Z.of_nat (length (bitmap m2))) (slot_of (pending_addr (self m2)))
                = Some (Z.to_nat (slot_of o))).
  { rewrite Hp2, Hsl, Hbm2, length_insert. apply slot_index; assumption. }
  assert (Hs2 : bitmap m2 !! Z.to_nat (slot_of o) = Some true).
  { rewrite Hbm2. apply list_lookup_insert_eq.
    eapply lookup_lt_Some; eassumption. }
  destruct (no_error_stop (self m)) eqn:Hstop.
  - rewrite (flush_run offs c'' m2 true (Z.to_nat (slot_of o)));
      [ | lia | exact Hi2 | exact Hs2 | right; congruence | lia
        | rewrite Hd2; unfold is_byte in Hb'; lia ].
    eexists. exists (write_events (self m2) (o + 2) b' c'' false).
    split; [reflexivity|]. split; [|discriminate].
    unfold flushed. fsimpl. rewrite Hout2, Hp2, Hd2, <- !app_assoc. reflexivity.
  - rewrite (flush_stop offs c'' m2 (Z.to_nat (slot_of o)));
      [ | lia | exact Hi2 | exact Hs2 | congruence ].
    eexists. exists []. split; [reflexivity|]. split; [|reflexivity].
    unfold logged. fsimpl. rewrite Hout2, Hp2, <- !app_assoc. reflexivity.
Qed.

Lemma gap_in_word_reported_witness :
  exists m',
    (write_byte 8 1 "";; write_byte 10 3 "";; write_byte_flush 0 "") m0
    = (Raise (SystemExit 1), m')
    /\ out (env m')
       = [FileWrite 7%nat (store_stmt 8 1 ""); Print "Overwriting location 0000000a"].
Proof.
  destruct (gap_in_word_reported 8 1 3 "" "" 0 "" m0)
    as (m' & rest & Hrun & Hout & Hrest);
    [reflexivity | reflexivity | unfold is_byte; lia | unfold is_byte; lia
    | lia | reflexivity | reflexivity | reflexivity | ].
  exists m'. split; [exact Hrun|]. rewrite Hout, Hrest by reflexivity. reflexivity.
Defined.

(** ** Zero padding *)

Lemma below_pow2_bits a n :
  0 <= a -> 0 <= n -> (a < 2 ^ n <-> forall i, n <= i -> Z.testbit a i = false).
Proof.
  intros Ha Hn. split.
  - intros Hlt i Hi. destruct (Z.eq_dec a 0) as [->|Hnz]; [apply Z.bits_0|].
    apply Z.bits_above_log2; [lia|].
    assert (Z.log2 a < n) by (apply Z.log2_lt_pow2; lia). lia.
  - intros Hbits. destruct (Z.eq_dec a 0) as [->|Hnz]; [apply Z.pow_pos_nonneg; lia|].
    apply Z.log2_lt_pow2; [lia|].
    destruct (Z.lt_ge_cases (Z.log2 a) n) as [|Hge]; [assumption|].
    specialize (Hbits (Z.log2 a) Hge). rewrite Z.bit_log2 in Hbits by lia.
    discriminate.
Qed.

Lemma collected_bound d v n :
  0 <= n -> 0 <= d < 2 ^ (8 * n) ->
  0 <= Z.lor d (Z.shiftl (Z.land v 255) (8 * n)) < 2 ^ (8 * (n + 1)).
Proof.
  intros Hn Hd. pose proof (byte_mask_range v) as Hb.
  assert (Hnn : 0 <= Z.lor d (Z.shiftl (Z.land v 255) (8 * n)))
    by (apply collected_nonneg; lia).
  split; [exact Hnn|].
  apply below_pow2_bits; [exact Hnn|lia|].
  intros i Hi. rewrite Z.lor_spec, Z.shiftl_spec by lia.
  rewrite (proj1 (below_pow2_bits d (8 * n) ltac:(lia) ltac:(lia)) ltac:(lia) i) by lia.
  rewrite (proj1 (below_pow2_bits (Z.land v 255) 8 ltac:(lia) ltac:(lia))
             ltac:(change (2 ^ 8) with 256; lia) (i - 8 * n)) by lia.
  reflexivity.
Qed.

Lemma write_byte_keeps_tight offs val c m m' :
  acc_tight (self m) -> write_byte offs val c m = (Ok tt, m') -> acc_tight (self m').
Proof.
  intros (Hn & Hd) Hrun.
  assert (Hcollect : forall m1 m2, 0 <= num (self m1) < 3 ->
            0 <= data (self m1) < 2 ^ (8 * num (self m1)) ->
            (offs = data_offs (self m1) \/ num (self m1) = 0) ->
            write_byte offs val c m1 = (Ok tt, m2) -> acc_tight (self m2)).
  { intros m1 m2 Hn1 Hd1 Ho1 H1.
    rewrite write_byte_collect in H1 by (auto; lia). injection H1 as <-.
    unfold acc_tight. fsimpl. split; [lia|]. apply collected_bound; lia. }
  destruct (Z.eqb_spec offs (data_offs (self m))) as [Heq|Hne].
  - destruct (Z.eq_dec (num (self m)) 3) as [H3|H3].
    + rewrite write_byte_fourth in Hrun by assumption.
      apply flush_ok_inv in Hrun; [|fsimpl; lia].
      destruct Hrun as (seen & n & _ & _ & _ & _ & _ & ->).
      unfold acc_tight, flushed. fsimpl. change (2 ^ (8 * 0)) with 1. lia.
    + eapply Hcollect; [| |left|]; eauto; lia.
  - destruct (Z.ltb_spec 0 (num (self m))) as [Hpos|Hzero].
    + rewrite write_byte_discontinuous in Hrun by assumption.
      destruct (write_byte_flush offs "" m) as [[[]|e] m1] eqn:Hf; [|discriminate].
      destruct (flush_ok_inv _ _ _ _ Hpos Hf) as (seen & n & _ & _ & _ & _ & _ & ->).
      eapply Hcollect; [| | |exact Hrun]; unfold flushed; fsimpl; auto;
        change (2 ^ (8 * 0)) with 1; lia.
    + eapply Hcollect; [| |right|]; eauto; lia.
Qed.

Lemma invoke_keeps_tight tc c m m' :
  acc_tight (self m) -> invoke tc c m = (Ok tt, m') -> acc_tight (self m').
Proof.
  intros Hacc Hrun. destruct (is_direct c) eqn:Hd.
  - apply (direct_untracked tc c Hd) in Hrun.
    destruct Hrun as [(_ & _ & Hdata & Hnum & _) _].
    unfold acc_tight. rewrite Hdata, Hnum. exact Hacc.
  - destruct c; try discriminate; cbn [invoke] in Hrun.
    + destruct (Z.ltb_spec 0 (num (self m))) as [Hn|Hn].
      * destruct (flush_ok_inv _ _ _ _ Hn Hrun) as (seen & n & _ & _ & _ & _ & _ & ->).
        unfold acc_tight, flushed. fsimpl. change (2 ^ (8 * 0)) with 1. lia.
      * rewrite flush_idle in Hrun by assumption. injection Hrun as <-. exact Hacc.
    + eapply write_byte_keeps_tight; eassumption.
Qed.

(** X7: in the object reached from the constructor by calls that
    returned, the accumulator holds exactly the bytes collected: with
    [num] bytes pending its value is below [2 ^ (8 * num)], so the word
    a partial flush sends has zeros in the positions not collected. *)
Theorem accumulator_zero_padded tc f base bm vw nes w cs m :
  invoke_all tc cs (__init__ tc f base bm vw nes w) = (Ok tt, m) ->
  0 <= num (self m) < 4 /\ 0 <= data (self m) < 2 ^ (8 * num (self m)).
Proof.
  assert (Hinit : acc_tight (self (__init__ tc f base bm vw nes w))).
  { unfold acc_tight, __init__. fsimpl. change (2 ^ (8 * 0)) with 1. lia. }
  revert Hinit. generalize (__init__ tc f base bm vw nes w). revert m.
  induction cs as [|c cs IH]; cbn [invoke_all]; intros m mi Hacc Hrun.
  - injection Hrun as <-. exact Hacc.
  - unfold mbind, M_bind, bind in Hrun.
    destruct (invoke tc c mi) as [[[]|e] m1] eqn:Hc; [|discriminate].
    eapply IH; [|exact Hrun]. eapply invoke_keeps_tight; eassumption.
Qed.

Lemma accumulator_zero_padded_witness :
  let m := snd (invoke_all small_map
                  [Cwrite_byte 8 0xff ""; Cwrite_byte 9 0xff ""; Cwrite_bias 0 1 (-1)] m0) in
  num (self m) = 2 /\ 0 <= data (self m) < 2 ^ 16.
Proof.
  cbn zeta.
  set (cs := [Cwrite_byte 8 0xff ""; Cwrite_byte 9 0xff ""; Cwrite_bias 0 1 (-1)]).
  assert (Hrun : invoke_all small_map cs m0 = (Ok tt, snd (invoke_all small_map cs m0)))
    by (vm_compute; reflexivity).
  assert (Hnum : num (self (snd (invoke_all small_map cs m0))) = 2)
    by (vm_compute; reflexivity).
  pose proof (accumulator_zero_padded small_map 7%nat 0 false false false empty_world
                cs _ Hrun) as [_ Hdata].
  rewrite Hnum in Hdata. split; [exact Hnum|exact Hdata].
Defined.

(** ** A stream of whole words *)

Lemma write_events_same_sink s s' :
  same_sink s s' -> write_events s' = write_events s.
Proof.
  intros (Hf & Ho & Hb & Hv & Hw). unfold write_events.
  rewrite Hf, Ho, Hb, Hv, Hw. reflexivity.
Qed.

Lemma after_write_same_sink s s' :
  same_sink s s' -> same_sink (after_write s) (after_write s').
Proof.
  intros (Hf & Ho & Hb & Hv & Hw). unfold same_sink, after_write. rewrite Hw.
  destruct (write_impl s) eqn:E; fsimpl; repeat split; congruence.
Qed.

Lemma words_log_same_sink ws : forall s s' o c,
  same_sink s s' -> words_log s' o ws c = words_log s o ws c.
Proof.
  induction ws as [|[[[b0 b1] b2] b3] ws IH]; intros s s' o c Hs; cbn [words_log].
  - reflexivity.
  - rewrite (write_events_same_sink _ _ Hs).
    rewrite (IH _ _ _ _ (after_write_same_sink _ _ Hs)). reflexivity.
Qed.

Lemma slot_of_next o : slot_of (o + 4) = slot_of o + 1.
Proof.
  rewrite !slot_of_div. replace (o + 4) with (1 * 4 + o) by lia.
  rewrite Z.div_add_l by lia. lia.
Qed.

Lemma seq4_assoc (a b c d k : M unit) m :
  (a;; b;; c;; d;; k) m = ((a;; b;; c;; d);; k) m.
Proof.
  unfold mbind, M_bind, bind.
  destruct (a m) as [[[]|e] m1]; [|reflexivity].
  destruct (b m1) as [[[]|e] m2]; [|reflexivity].
  destruct (c m2) as [[[]|e] m3]; [|reflexivity].
  reflexivity.
Qed.

Lemma write_words_grows ws : forall o c, respects bitmap_grows (write_words o ws c).
Proof.
  induction ws as [|[[[b0 b1] b2] b3] ws IH]; intros o c; cbn [write_words].
  - apply respects_ret, bitmap_grows_refl.
  - repeat (apply respects_bind;
            [exact bitmap_grows_trans|apply write_byte_grows|intros _]).
    apply IH.
Qed.

(** X6: whole words written byte by byte at consecutive offsets from
    [o], into an empty accumulator, when [o] is not negative and the
    slots of the run are inside the bitmap and unmarked: the calls
    return, the log grows by one backend write per word, in order, to
    [o], [o + 4], ... with the little-endian packing of its four bytes,
    and nothing else; every slot of the run is marked and the
    accumulator is empty again. *)
Theorem words_coalesced ws : forall o c m,
  num (self m) = 0 -> data (self m) = 0 ->
  Forall word_bytes ws -> 0 <= o ->
  (forall i, (i < length ws)%nat ->
     bitmap m !! (Z.to_nat (slot_of o) + i)%nat = Some false) ->
  exists m',
    write_words o ws c m = (Ok tt, m')
    /\ out (env m') = out (env m) ++ words_log (self m) o ws c
    /\ num (self m') = 0 /\ data (self m') = 0
    /\ length (bitmap m') = length (bitmap m)
    /\ (forall i, (i < length ws)%nat ->
          bitmap m' !! (Z.to_nat (slot_of o) + i)%nat = Some true).
Proof.
  induction ws as [|[[[b0 b1] b2] b3] ws IH]; intros o c m Hn Hd Hws Ho Hfree.
  - exists m. cbn [write_words words_log length]. rewrite app_nil_r.
    repeat split; auto. intros i Hi. lia.
  - apply Forall_cons in Hws. destruct Hws as [(H0 & H1 & H2 & H3) Hws].
    assert (Hslot0 : bitmap m !! Z.to_nat (slot_of o) = Some false).
    { specialize (Hfree 0%nat ltac:(cbn; lia)). rewrite Nat.add_0_r in Hfree.
      exact Hfree. }
    assert (Hin : slot_of o < Z.of_nat (length (bitmap m))).
    { apply lookup_lt_Some in Hslot0.
      pose proof (proj1 (slot_nonneg o) Ho). lia. }
    pose proof (pack_le_range b0 b1 b2 b3 H0 H1 H2 H3) as Hrange.
    cbn [write_words].
    rewrite seq4_assoc. unfold mbind at 1, M_bind at 1, bind at 1.
    rewrite four_bytes_collected by assumption.
    set (m4 := mkMachine _ _).
    assert (Hp : pending_addr (self m4) = o) by (unfold pending_addr, m4; fsimpl; lia).
    assert (Hb4 : bitmap m4 = bitmap m) by reflexivity.
    rewrite (flush_run (o + 4) c m4 false (Z.to_nat (slot_of o)));
      [ | unfold m4; fsimpl; lia | rewrite Hp, Hb4; apply slot_index; assumption
        | rewrite Hb4; exact Hslot0 | left; reflexivity | lia | unfold m4; fsimpl; lia ].
    set (F := flushed _ _ _ _ m4).
    assert (HbF : bitmap F = <[Z.to_nat (slot_of o) := true]> (bitmap m))
      by (unfold F; rewrite bitmap_flushed, Hb4; reflexivity).
    assert (Hnext : Z.to_nat (slot_of (o + 4)) = S (Z.to_nat (slot_of o))).
    { rewrite slot_of_next. pose proof (proj1 (slot_nonneg o) Ho). lia. }
    destruct (IH (o + 4) c F) as (m' & Hrun & Hout & Hn' & Hd' & Hlen & Hmarked).
    + unfold F, flushed. reflexivity.
    + unfold F, flushed. reflexivity.
    + exact Hws.
    + lia.
    + intros i Hi. rewrite Hnext, HbF.
      rewrite list_lookup_insert_ne by lia.
      specialize (Hfree (S i) ltac:(cbn; lia)).
      replace (S (Z.to_nat (slot_of o)) + i)%nat
        with (Z.to_nat (slot_of o) + S i)%nat by lia.
      exact Hfree.
    + exists m'. split; [exact Hrun|]. split.
      { rewrite Hout. cbn [words_log]. rewrite app_assoc. f_equal.
        - unfold F, flushed. fsimpl. rewrite Hp. unfold m4. fsimpl. reflexivity.
        - apply words_log_same_sink. unfold same_sink, F, flushed, m4, after_write.
          fsimpl. destruct (write_impl (self m)); fsimpl; auto. }
      split; [exact Hn'|]. split; [exact Hd'|]. split.
      { rewrite Hlen, HbF, length_insert. reflexivity. }
      intros [|i] Hi.
      * rewrite Nat.add_0_r.
        destruct (write_words_grows ws (o + 4) c F _ m' Hrun) as (_ & _ & Hkeep).
        apply Hkeep. rewrite HbF. apply list_lookup_insert_eq.
        eapply lookup_lt_Some; exact Hslot0.
      * replace (Z.to_nat (slot_of o) + S i)%nat
          with (Z.to_nat (slot_of (o + 4)) + i)%nat by lia.
        apply Hmarked. cbn [length] in Hi. lia.
Qed.

Lemma words_coalesced_witness :
  let m := __init__ small_map 7%nat 0 true false false empty_world in
  exists m',
    write_words 8 [(1, 2, 3, 4); (5, 6, 7, 8)] "" m = (Ok tt, m')
    /\ out (env m')
       = [FileWrite 7%nat (mem_record 0 8); FileWrite 7%nat (mem_record 1 0x04030201);
          FileWrite 7%nat (mem_record 2 12); FileWrite 7%nat (mem_record 3 0x08070605)].
Proof.
  cbn zeta.
  destruct (words_coalesced [(1, 2, 3, 4); (5, 6, 7, 8)] 8 ""
              (__init__ small_map 7%nat 0 true false false empty_world))
    as (m' & Hrun & Hout & _).
  - reflexivity.
  - reflexivity.
  - repeat constructor; unfold is_byte; lia.
  - lia.
  - intros [|[|i]] Hi; [vm_compute; reflexivity|vm_compute; reflexivity|cbn in Hi; lia].
  - exists m'. split; [exact Hrun|]. rewrite Hout. reflexivity.
Defined.

(** ** Properties of every call through the interface *)

Section Interface.

Variable R : machine -> machine -> Prop.
Hypothesis R_refl : forall m, R m m.
Hypothesis R_trans : forall m1 m2 m3, R m1 m2 -> R m2 m3 -> R m1 m3.
Hypothesis R_write : forall a v c nv, respects R (write a v c nv).
Hypothesis R_verify : forall a v c rv, respects R (verify a v c rv).
Hypothesis R_print : forall s, respects R (print s).
Hypothesis R_getitem : forall i, respects R (mem_getitem i).
Hypothesis R_setitem : forall i v, respects R (mem_setitem i v).
Hypothesis R_acc : forall f, only_acc f -> respects R (modify_self f).

Ltac interface_steps :=
  repeat first
    [ apply R_write | apply R_verify | apply R_print | apply R_getitem
    | apply R_setitem | apply respects_ret; exact R_refl
    | apply respects_raise; exact R_refl | apply respects_get_self; exact R_refl
    | apply respects_assert; exact R_refl | apply respects_getitem; exact R_refl
    | apply respects_floordiv; exact R_refl | apply respects_pymod; exact R_refl
    | apply respects_lshift; exact R_refl
    | apply R_acc; intros ?; fsimpl; auto 10
    | apply respects_bind; [exact R_trans | | intros ?]
    | match goal with
      | |- respects _ (if ?b then _ else _) => destruct b
      | |- respects _ (match ?x with _ => _ end) => destruct x
      end ].

Lemma interface_flush offs c : respects R (write_byte_flush offs c).
Proof. unfold write_byte_flush, sys_exit. interface_steps. Qed.

Lemma interface_write_byte offs val c : respects R (write_byte offs val c).
Proof.
  unfold write_byte. interface_steps; apply interface_flush.
Qed.

Lemma interface_call tc c : is_bound c = true -> respects R (invoke tc c).
Proof.
  destruct c; cbn [is_bound invoke]; try discriminate; intros _.
  - apply R_write.
  - apply R_verify.
  - unfold write_ctl. interface_steps.
  - unfold write_lreg. interface_steps.
  - unfold write_bias. interface_steps.
  - unfold write_tram. interface_steps.
  - unfold write_kern. interface_steps.
  - apply interface_flush.
  - apply interface_write_byte.
  - unfold get_mem. interface_steps.
Qed.

Lemma interface_script tc cs :
  forallb is_bound cs = true -> respects R (invoke_all tc cs).
Proof.
  induction cs as [|c cs IH]; cbn [forallb invoke_all]; intros Hcs.
  - apply respects_ret, R_refl.
  - apply andb_prop in Hcs. destruct Hcs as [Hc Hcs].
    apply respects_bind; [exact R_trans|apply interface_call; exact Hc|intros _; auto].
Qed.

End Interface.

(** ** What the constructor fixed *)

Lemma config_kept_refl m : config_kept m m.
Proof. unfold config_kept. auto 10. Qed.

Lemma config_kept_trans m1 m2 m3 :
  config_kept m1 m2 -> config_kept m2 m3 -> config_kept m1 m3.
Proof. unfold config_kept. intuition congruence. Qed.

Lemma same_engine_config m m' : same_engine m m' -> config_kept m m'.
Proof. unfold same_engine, config_kept. intuition. Qed.

Lemma untracked_config {A} (c : M A) : respects untracked c -> respects config_kept c.
Proof.
  intros Hc m r m' Hrun. apply same_engine_config. eapply Hc. exact Hrun.
Qed.

Lemma config_setitem i v : respects config_kept (mem_setitem i v).
Proof.
  intros m r m'. unfold mem_setitem.
  destruct (list_setitem _ i v); intros [= _ <-]; unfold config_kept; fsimpl; auto 10.
Qed.

Lemma config_getitem i : respects config_kept (mem_getitem i).
Proof.
  intros m r m'. unfold mem_getitem.
  destruct (list_getitem _ i); intros [= _ <-]; apply config_kept_refl.
Qed.

Lemma config_acc f : only_acc f -> respects config_kept (modify_self f).
Proof.
  intros Hf m r m' [= _ <-]. unfold config_kept. fsimpl.
  destruct (Hf (self m)) as (_ & _ & ? & ? & ? & ? & ? & ?). auto 10.
Qed.

Lemma config_write a v c nv : respects config_kept (write a v c nv).
Proof. apply untracked_config, write_untracked. Qed.

Lemma config_verify a v c rv : respects config_kept (verify a v c rv).
Proof. apply untracked_config, verify_untracked. Qed.

Lemma config_print s : respects config_kept (print s).
Proof. intros m r m' [= _ <-]. unfold config_kept. fsimpl. auto 10. Qed.

(** X13: no method rebinds what the constructor set up: after any calls,
    however they end, the base address, the two policy flags, the
    backend [write] and [verify] are bound to and the reference to the
    bitmap are those of the new object. *)
Theorem configuration_fixed tc f base bm vw nes w cs r m :
  invoke_all tc cs (__init__ tc f base bm vw nes w) = (r, m) ->
  apb_base (self m) = base
  /\ verify_writes (self m) = vw
  /\ no_error_stop (self m) = nes
  /\ write_impl (self m) = (if bm then Block else Top)
  /\ verify_impl (self m) = (if bm then Block else Top)
  /\ mem (self m) = fresh (dom (heap w)).
Proof.
  intros Hrun.
  assert (Hcall : forall c, respects config_kept (invoke tc c)).
  { intros c. destruct (is_bound c) eqn:Hb.
    - apply (interface_call config_kept config_kept_refl config_kept_trans
               config_write config_verify config_print config_getitem
               config_setitem config_acc).
      exact Hb.
    - apply untracked_config. apply direct_untracked.
      destruct c; try discriminate; reflexivity. }
  assert (Hall : config_kept (__init__ tc f base bm vw nes w) m).
  { revert Hrun. generalize (__init__ tc f base bm vw nes w). revert r m.
    induction cs as [|c cs IH]; cbn [invoke_all]; intros r m mi Hrun.
    - injection Hrun as _ <-. apply config_kept_refl.
    - unfold mbind, M_bind, bind in Hrun.
      destruct (invoke tc c mi) as [[[]|e] m1] eqn:Hc.
      + eapply config_kept_trans; [eapply Hcall; exact Hc|eapply IH; exact Hrun].
      + injection Hrun as _ <-. eapply Hcall; exact Hc. }
  destruct Hall as (H1 & H2 & H3 & H4 & H5 & H6).
  rewrite H1, H2, H3, H4, H5, H6. unfold __init__. fsimpl. auto 10.
Qed.

Lemma configuration_fixed_witness :
  let cs := [Cwrite_byte 8 1 ""; Cset_memfile 9%nat; Cwrite_top 4 5 "" false;
             Cwrite_byte 0 2 ""; Cwrite_ctl 0 (-1) 0 false None] in
  let m := snd (invoke_all small_map cs
                  (__init__ small_map 7%nat 16 true true false empty_world)) in
  fst (invoke_all small_map cs
         (__init__ small_map 7%nat 16 true true false empty_world))
  = Raise AssertionError
  /\ apb_base (self m) = 16 /\ write_impl (self m) = Block /\ mem (self m) = 0%nat.
Proof.
  cbn zeta.
  set (cs := [Cwrite_byte 8 1 ""; Cset_memfile 9%nat; Cwrite_top 4 5 "" false;
              Cwrite_byte 0 2 ""; Cwrite_ctl 0 (-1) 0 false None]).
  set (mi := __init__ small_map 7%nat 16 true true false empty_world).
  assert (Hrun : invoke_all small_map cs mi
                 = (Raise AssertionError, snd (invoke_all small_map cs mi)))
    by (vm_compute; reflexivity).
  destruct (configuration_fixed small_map 7%nat 16 true true false empty_world cs _ _ Hrun)
    as (Hb & _ & _ & Hw & _ & Hm).
  split; [vm_compute; reflexivity|]. split; [exact Hb|]. split; [exact Hw|].
  rewrite Hm. vm_compute. reflexivity.
Defined.

(** ** The line counter of the block backend *)

Lemma block_counted_refl m : block_counted m m.
Proof.
  intros Hw Hv. repeat split; auto. exists []. rewrite app_nil_r. cbn.
  repeat split; [lia|]. intros f s [].
Qed.

Lemma block_counted_trans m1 m2 m3 :
  block_counted m1 m2 -> block_counted m2 m3 -> block_counted m1 m3.
Proof.
  intros H12 H23 Hw Hv.
  destruct (H12 Hw Hv) as (Hw2 & Hv2 & Hf2 & evs1 & Ho1 & Hc1 & Hin1).
  destruct (H23 Hw2 Hv2) as (Hw3 & Hv3 & Hf3 & evs2 & Ho2 & Hc2 & Hin2).
  repeat split; auto; [congruence|].
  exists (evs1 ++ evs2). rewrite Ho2, Ho1, app_assoc. split; [reflexivity|].
  rewrite List.filter_app, List.length_app. split; [lia|].
  intros f s Hin. apply List.in_app_or in Hin. destruct Hin as [Hin|Hin].
  - eapply Hin1; exact Hin.
  - rewrite <- Hf2. eapply Hin2; exact Hin.
Qed.

Lemma block_counted_quiet m m' :
  write_impl (self m') = write_impl (self m) ->
  verify_impl (self m') = verify_impl (self m) ->
  memfile (self m') = memfile (self m) ->
  foffs (self m') = foffs (self m) ->
  (out (env m') = out (env m) \/ exists s, out (env m') = out (env m) ++ [Print s]) ->
  block_counted m m'.
Proof.
  intros Hw Hv Hf Ho Hout Hw0 Hv0. repeat split; try congruence.
  destruct Hout as [Hout|[s Hout]].
  - exists []. rewrite app_nil_r. cbn. repeat split; [assumption|lia|].
    intros f s [].
  - exists [Print s]. cbn. repeat split; [assumption|lia|].
    intros f s' [H|[]]. discriminate.
Qed.

Lemma block_write a v c nv : respects block_counted (write a v c nv).
Proof.
  intros m r m' Hrun Hw Hv.
  destruct (Z.leb_spec 0 a) as [Ha|Ha]; destruct (Z.leb_spec 0 v) as [Hval|Hval];
    try (rewrite write_raise in Hrun by lia; injection Hrun as _ <-;
         apply block_counted_refl; assumption).
  rewrite write_run in Hrun by assumption. injection Hrun as _ <-.
  unfold after_write, write_events. rewrite Hw. fsimpl.
  repeat split; auto. eexists. split; [reflexivity|]. cbn. split; [lia|].
  intros f s [H|[H|[]]]; congruence.
Qed.

Lemma block_verify a v c rv : respects block_counted (verify a v c rv).
Proof.
  intros m r m' Hrun Hw Hv. unfold verify, mbind, M_bind, bind, get_self in Hrun.
  rewrite Hv in Hrun.
  replace m' with m; [apply block_counted_refl; assumption|].
  rewrite <- (verify_block_state a v c rv m). rewrite Hrun. reflexivity.
Qed.

Lemma block_print s : respects block_counted (print s).
Proof.
  intros m r m' [= _ <-]. apply block_counted_quiet; fsimpl; eauto.
Qed.

Lemma block_getitem i : respects block_counted (mem_getitem i).
Proof.
  intros m r m'. unfold mem_getitem.
  destruct (list_getitem _ i); intros [= _ <-]; apply block_counted_refl.
Qed.

Lemma block_setitem i v : respects block_counted (mem_setitem i v).
Proof.
  intros m r m'. unfold mem_setitem.
  destruct (list_setitem _ i v); intros [= _ <-];
    apply block_counted_quiet; fsimpl; auto.
Qed.

Lemma block_acc f : only_acc f -> respects block_counted (modify_self f).
Proof.
  intros Hf m r m' [= _ <-].
  destruct (Hf (self m)) as (? & ? & _ & _ & _ & _ & ? & ?).
  apply block_counted_quiet; fsimpl; auto.
Qed.

(** X2: for an object bound to the block backend, whatever is called
    through the interface (register, bias, TRAM and kernel writes, the
    byte collector, verifies) and however it ends, the line counter has
    gone up by exactly the number of lines written to the file object
    meanwhile, and all of them went to the current file object. *)
Theorem block_lines_counted tc cs m r m' :
  write_impl (self m) = Block -> verify_impl (self m) = Block ->
  forallb is_bound cs = true ->
  invoke_all tc cs m = (r, m') ->
  exists evs,
    out (env m') = out (env m) ++ evs
    /\ foffs (self m') = foffs (self m) + Z.of_nat (length (List.filter is_file_write evs))
    /\ forall f s, In (FileWrite f s) evs -> f = memfile (self m).
Proof.
  intros Hw Hv Hcs Hrun.
  pose proof (interface_script block_counted block_counted_refl block_counted_trans
                block_write block_verify block_print block_getitem block_setitem
                block_acc tc cs Hcs m r m' Hrun) as H.
  destruct (H Hw Hv) as (_ & _ & _ & Hevs). exact Hevs.
Qed.

Lemma block_lines_counted_witness :
  let cs := [Cwrite_kern 0 5 1 [1; 2; 3; 4; 5; 6; 7; 8; 9];
             Cwrite_byte 16 1 ""; Cwrite_byte 20 2 ""; Cwrite_bias 0 0 (-1)] in
  let m := snd (invoke_all small_map cs
                  (__init__ small_map 7%nat 0 true true false empty_world)) in
  foffs (self m) = 12 /\ length (out (env m)) = 12%nat.
Proof.
  cbn zeta.
  set (cs := [Cwrite_kern 0 5 1 [1; 2; 3; 4; 5; 6; 7; 8; 9];
              Cwrite_byte 16 1 ""; Cwrite_byte 20 2 ""; Cwrite_bias 0 0 (-1)]).
  set (mi := __init__ small_map 7%nat 0 true true false empty_world).
  assert (Hrun : invoke_all small_map cs mi = (Ok tt, snd (invoke_all small_map cs mi)))
    by (vm_compute; reflexivity).
  destruct (block_lines_counted small_map cs mi _ _ eq_refl eq_refl eq_refl Hrun)
    as (evs & Hout & Hfoffs & _).
  assert (Hevs : length (List.filter is_file_write evs) = 12%nat).
  { assert (Hlog : out (env (snd (invoke_all small_map cs mi))) = [] ++ evs)
      by exact Hout.
    cbn [app] in Hlog. rewrite <- Hlog. vm_compute. reflexivity. }
  rewrite Hfoffs, Hevs. split; [reflexivity|]. vm_compute. reflexivity.
Defined.

(** ** Overwrites as warnings *)

Lemma never_exits_ret {A} (a : A) : never_exits (ret a).
Proof. intros m r m' Hnes [= <- <-]. split; [assumption|discriminate]. Qed.

Lemma never_exits_raise {A} e :
  (forall n, e <> SystemExit n) -> never_exits (@raise A e).
Proof.
  intros He m r m' Hnes [= <- <-]. split; [assumption|].
  intros n [= H]. exact (He n H).
Qed.

Lemma never_exits_bind {A B} (c : M A) (k : A -> M B) :
  never_exits c -> (forall a, never_exits (k a)) -> never_exits (c ≫= k).
Proof.
  intros Hc Hk m r m' Hnes. unfold mbind, M_bind, bind.
  destruct (c m) as [[a|e] m1] eqn:Hcm.
  - destruct (Hc _ _ _ Hnes Hcm) as [Hnes1 _]. apply Hk. exact Hnes1.
  - intros [= <- <-]. destruct (Hc _ _ _ Hnes Hcm) as [Hnes1 He].
    split; [exact Hnes1|]. intros n [= H]. apply (He n). rewrite H. reflexivity.
Qed.

(** After [s = self], what follows may rely on the flag of [s]. *)
Lemma never_exits_self {B} (k : APB -> M B) :
  (forall s, no_error_stop s = true -> never_exits (k s)) ->
  never_exits (get_self ≫= k).
Proof.
  intros Hk m r m' Hnes. unfold mbind, M_bind, bind, get_self.
  apply Hk; assumption.
Qed.

Lemma never_exits_emit e : never_exits (emit e).
Proof. intros m r m' Hnes [= <- <-]. split; [assumption|discriminate]. Qed.

Lemma never_exits_modify f :
  (forall s, no_error_stop (f s) = no_error_stop s) -> never_exits (modify_self f).
Proof.
  intros Hf m r m' Hnes [= <- <-]. fsimpl. rewrite Hf. split; [assumption|discriminate].
Qed.

Lemma never_exits_mem_getitem i : never_exits (mem_getitem i).
Proof.
  intros m r m' Hnes. unfold mem_getitem.
  destruct (list_getitem _ i); intros [= <- <-]; split; auto; discriminate.
Qed.

Lemma never_exits_mem_setitem i v : never_exits (mem_setitem i v).
Proof.
  intros m r m' Hnes. unfold mem_setitem.
  destruct (list_setitem _ i v); intros [= <- <-]; split; auto; discriminate.
Qed.

Lemma never_exits_assert b : never_exits (assert_ b).
Proof.
  destruct b; [apply never_exits_ret|apply never_exits_raise; discriminate].
Qed.

Lemma never_exits_getitem k i : never_exits (getitem k i).
Proof.
  unfold getitem. destruct (list_getitem k i);
    [apply never_exits_ret|apply never_exits_raise; discriminate].
Qed.

Lemma never_exits_floordiv a b : never_exits (floordiv a b).
Proof.
  unfold floordiv. destruct (b =? 0);
    [apply never_exits_raise; discriminate|apply never_exits_ret].
Qed.

Lemma never_exits_pymod a b : never_exits (pymod a b).
Proof.
  unfold pymod. destruct (b =? 0);
    [apply never_exits_raise; discriminate|apply never_exits_ret].
Qed.

Lemma never_exits_lshift a n : never_exits (lshift a n).
Proof.
  unfold lshift. destruct (n <? 0);
    [apply never_exits_raise; discriminate|apply never_exits_ret].
Qed.

Lemma never_exits_memfile_write s : never_exits (memfile_write s).
Proof.
  unfold memfile_write. apply never_exits_bind; [|intros ?; apply never_exits_emit].
  intros m r m' Hnes [= <- <-]. split; [assumption|discriminate].
Qed.

Lemma never_exits_print s : never_exits (print s).
Proof. apply never_exits_emit. Qed.

Create HintDb never_exits.

#[local] Hint Resolve never_exits_ret never_exits_assert never_exits_getitem
  never_exits_floordiv never_exits_pymod never_exits_lshift never_exits_memfile_write
  never_exits_print never_exits_mem_getitem never_exits_mem_setitem : never_exits.

Ltac never_exits_steps :=
  repeat first
    [ solve [auto with never_exits]
    | simple apply never_exits_modify; intros ?; reflexivity
    | simple apply never_exits_self; intros ? ?
    | simple apply never_exits_bind; [ | intros ?]
    | match goal with
      | H : no_error_stop ?s = true |- context [no_error_stop ?s] =>
          rewrite H; cbn [negb]
      | |- never_exits (if ?b then _ else _) => destruct b
      | |- never_exits (match ?x with _ => _ end) => destruct x
      end ].

Lemma never_exits_write_block a v c nv : never_exits (write_block a v c nv).
Proof. unfold write_block. never_exits_steps. Qed.

Lemma never_exits_write_top a v c nv : never_exits (write_top a v c nv).
Proof. unfold write_top. never_exits_steps. Qed.

Lemma never_exits_verify_block a v c rv : never_exits (verify_block a v c rv).
Proof. unfold verify_block. never_exits_steps. Qed.

Lemma never_exits_verify_top a v c rv : never_exits (verify_top a v c rv).
Proof. unfold verify_top. never_exits_steps. Qed.

#[local] Hint Resolve never_exits_write_block never_exits_write_top
  never_exits_verify_block never_exits_verify_top : never_exits.

Lemma never_exits_write a v c nv : never_exits (write a v c nv).
Proof. unfold write. never_exits_steps. Qed.

Lemma never_exits_verify a v c rv : never_exits (verify a v c rv).
Proof. unfold verify. never_exits_steps. Qed.

#[local] Hint Resolve never_exits_write never_exits_verify : never_exits.

Lemma never_exits_flush offs c : never_exits (write_byte_flush offs c).
Proof. unfold write_byte_flush, sys_exit. never_exits_steps. Qed.

#[local] Hint Resolve never_exits_flush : never_exits.

Lemma never_exits_write_byte offs val c : never_exits (write_byte offs val c).
Proof. unfold write_byte. never_exits_steps. Qed.

Lemma never_exits_call tc c : never_exits (invoke tc c).
Proof.
  destruct c; cbn [invoke]; auto with never_exits.
  - unfold set_memfile. never_exits_steps.
  - unfold write_ctl. never_exits_steps.
  - unfold write_lreg. never_exits_steps.
  - unfold write_bias. never_exits_steps.
  - unfold write_tram. never_exits_steps.
  - unfold write_kern. never_exits_steps.
  - apply never_exits_write_byte.
  - unfold get_mem. never_exits_steps.
Qed.

(** X14: with [no_error_stop] set, no call ends the process: whatever is
    called, and whatever was written before, the outcome is never
    [sys.exit], and the flag is still set afterwards. *)
Theorem no_error_stop_never_exits tc cs m r m' :
  no_error_stop (self m) = true ->
  invoke_all tc cs m = (r, m') ->
  no_error_stop (self m') = true /\ forall n, r <> Raise (SystemExit n).
Proof.
  revert m r m'. induction cs as [|c cs IH]; cbn [invoke_all]; intros m r m' Hnes Hrun.
  - injection Hrun as <- <-. split; [assumption|discriminate].
  - unfold mbind, M_bind, bind in Hrun.
    destruct (invoke tc c m) as [[[]|e] m1] eqn:Hc.
    + destruct (never_exits_call tc c _ _ _ Hnes Hc) as [Hnes1 _].
      eapply IH; eassumption.
    + injection Hrun as <- <-. eapply never_exits_call; eassumption.
Qed.

Lemma no_error_stop_never_exits_witness :
  let cs := [Cwrite_byte 0 1 ""; Cwrite_byte 4 2 ""; Cwrite_byte 0 3 "";
             Cwrite_byte_flush 0 ""] in
  let mi := __init__ small_map 7%nat 0 false false true empty_world in
  fst (invoke_all small_map cs mi) = Ok tt
  /\ List.filter is_report (out (env (snd (invoke_all small_map cs mi))))
     = [Print "Overwriting location 00000000"].
Proof.
  cbn zeta.
  set (cs := [Cwrite_byte 0 1 ""; Cwrite_byte 4 2 ""; Cwrite_byte 0 3 "";
              Cwrite_byte_flush 0 ""]).
  set (mi := __init__ small_map 7%nat 0 false false true empty_world).
  destruct (invoke_all small_map cs mi) as [r m'] eqn:Hrun.
  destruct (no_error_stop_never_exits small_map cs mi r m' eq_refl Hrun) as [_ Hr].
  assert (Hfst : r = fst (invoke_all small_map cs mi)) by (rewrite Hrun; reflexivity).
  assert (Hsnd : m' = snd (invoke_all small_map cs mi)) by (rewrite Hrun; reflexivity).
  cbn [fst snd]. rewrite Hfst, Hsnd. split; vm_compute; reflexivity.
Defined.

(** ** Kernels in general *)

Lemma byte_bits_high b i : 0 <= b < 256 -> 8 <= i -> Z.testbit b i = false.
Proof.
  intros Hb Hi.
  apply (proj1 (below_pow2_bits b 8 ltac:(lia) ltac:(lia)));
    [change (2 ^ 8) with 256; lia|exact Hi].
Qed.

Lemma mask_bits i : 0 <= i -> Z.testbit 255 i = (i <? 8).
Proof.
  intros Hi. change 255 with (Z.ones 8). destruct (Z.ltb_spec i 8).
  - apply Z.ones_spec_low. lia.
  - apply Z.ones_spec_high. lia.
Qed.

(** The bits of a packed kernel word, byte by byte. *)
Lemma kern_word_bits a b c d i :
  0 <= i ->
  Z.testbit (kern_word a b c d) i
  = (if i <? 8 then Z.testbit (Z.land d 255) i
     else if i <? 16 then Z.testbit (Z.land c 255) (i - 8)
     else if i <? 24 then Z.testbit (Z.land b 255) (i - 16)
     else Z.testbit (Z.land a 255) (i - 24)).
Proof.
  intros Hi. unfold kern_word.
  pose proof (byte_mask_range a) as Ha. pose proof (byte_mask_range b) as Hb.
  pose proof (byte_mask_range c) as Hc. pose proof (byte_mask_range d) as Hd.
  rewrite !Z.lor_spec, !Z.shiftl_spec by lia.
  destruct (Z.ltb_spec i 8); [|destruct (Z.ltb_spec i 16); [|destruct (Z.ltb_spec i 24)]].
  - rewrite (Z.testbit_neg_r _ (i - 24)), (Z.testbit_neg_r _ (i - 16)),
      (Z.testbit_neg_r _ (i - 8)) by lia. reflexivity.
  - rewrite (Z.testbit_neg_r _ (i - 24)), (Z.testbit_neg_r _ (i - 16)) by lia.
    rewrite (byte_bits_high _ i Hd) by lia. cbn. apply orb_false_r.
  - rewrite (Z.testbit_neg_r _ (i - 24)) by lia.
    rewrite (byte_bits_high _ i Hd), (byte_bits_high _ (i - 8) Hc) by lia.
    cbn. rewrite !orb_false_r. reflexivity.
  - rewrite (byte_bits_high _ i Hd), (byte_bits_high _ (i - 8) Hc),
      (byte_bits_high _ (i - 16) Hb) by lia.
    rewrite !orb_false_r. reflexivity.
Qed.

Lemma kern_word_nonneg a b c d : 0 <= kern_word a b c d.
Proof.
  pose proof (byte_mask_range a). pose proof (byte_mask_range b).
  pose proof (byte_mask_range c). pose proof (byte_mask_range d).
  unfold kern_word.
  apply Z.lor_nonneg; split; [|lia].
  apply Z.lor_nonneg; split; [|apply Z.shiftl_nonneg; lia].
  apply Z.lor_nonneg; split; apply Z.shiftl_nonneg; lia.
Qed.

(** X9: a packed kernel word fits 32 bits whatever four integers go in,
    and gives them back modulo 256: the first in bits 24 to 31, the
    second in bits 16 to 23, the third in bits 8 to 15 and the fourth in
    the low byte. *)
Theorem kern_word_bytes a b c d :
  0 <= kern_word a b c d < 2 ^ 32
  /\ Z.land (Z.shiftr (kern_word a b c d) 24) 255 = a mod 256
  /\ Z.land (Z.shiftr (kern_word a b c d) 16) 255 = b mod 256
  /\ Z.land (Z.shiftr (kern_word a b c d) 8) 255 = c mod 256
  /\ Z.land (kern_word a b c d) 255 = d mod 256.
Proof.
  pose proof (kern_word_nonneg a b c d) as Hnn.
  pose proof (byte_mask_range a) as Ha. pose proof (byte_mask_range b) as Hb.
  pose proof (byte_mask_range c) as Hc. pose proof (byte_mask_range d) as Hd.
  split; [split; [exact Hnn|]|].
  - apply below_pow2_bits; [exact Hnn|lia|]. intros i Hi.
    rewrite kern_word_bits by lia.
    destruct (Z.ltb_spec i 8); [lia|]. destruct (Z.ltb_spec i 16); [lia|].
    destruct (Z.ltb_spec i 24); [lia|]. apply byte_bits_high; [exact Ha|lia].
  - rewrite <- !byte_mask_mod.
    repeat split; apply Z.bits_inj'; intros i Hi;
      rewrite Z.land_spec, ?Z.shiftr_spec by lia;
      rewrite (mask_bits i) by lia;
      (destruct (Z.ltb_spec i 8);
       [ rewrite andb_true_r, kern_word_bits by lia;
         repeat match goal with
                | |- context [?x <? ?y] => destruct (Z.ltb_spec x y); try lia
                end;
         f_equal; lia
       | rewrite andb_false_r; symmetry; apply byte_bits_high;
         [apply byte_mask_range|lia] ]).
Qed.

Lemma getitem_run (k : list Z) (i : Z) (x : Z) m :
  0 <= i -> k !! Z.to_nat i = Some x -> getitem k i m = (Ok x, m).
Proof.
  intros Hi Hx. unfold getitem, list_getitem, py_index.
  pose proof (lookup_lt_Some _ _ _ Hx) as Hlen.
  destruct (Z.leb_spec 0 i); [|lia].
  destruct (Z.ltb_spec i (Z.of_nat (length k))); [|lia].
  cbn [andb]. rewrite Hx. reflexivity.
Qed.

Lemma getitem_short (k : list Z) (i : Z) m :
  Z.of_nat (length k) <= i -> getitem k i m = (Raise IndexError, m).
Proof.
  intros Hi. unfold getitem, list_getitem, py_index.
  destruct (Z.leb_spec 0 i); [|lia].
  destruct (Z.ltb_spec i (Z.of_nat (length k))); [lia|].
  destruct (Z.leb_spec (- Z.of_nat (length k)) i), (Z.ltb_spec i 0); cbn [andb];
    try reflexivity; lia.
Qed.

(** X10: for a channel and an index in bounds, on a memory map whose
    stride and mask base are not negative and which has processors,
    [write_kern] returns for every kernel of nine integers or more,
    negative ones included: no value fails the assertion of the backend.
    The log grows by the word of the first element's low byte, the two
    packed words of elements 1 to 4 and 5 to 8, and the zero word, at
    the kernel's address and the three words after it (and their
    verifies when [verify_writes] is set); elements beyond the ninth are
    ignored. *)
Theorem write_kern_any_kernel tc ll ch idx k0 k1 k2 k3 k4 k5 k6 k7 k8 rest m :
  0 <= C_GROUP_OFFS tc -> 0 <= C_MRAM_BASE tc -> 0 < P_NUMPRO tc ->
  0 <= ch < MAX_CHANNELS tc -> 0 <= idx < MASK_WIDTH tc ->
  exists m',
    write_kern tc ll ch idx (k0 :: k1 :: k2 :: k3 :: k4 :: k5 :: k6 :: k7 :: k8 :: rest) m
    = (Ok tt, m')
    /\ out (env m')
       = out (env m)
         ++ kern_words_log (self m) (kern_addr tc ch idx) (kern_comment ll ch idx)
              (k0 mod 256) (kern_word k1 k2 k3 k4) (kern_word k5 k6 k7 k8).
Proof.
  intros Hg Hmb Hp Hch Hidx.
  pose proof (kern_addr_nonneg tc ch idx Hg Hmb Hp ltac:(lia) Hidx) as Hbase.
  pose proof (byte_mask_range k0) as H0.
  pose proof (kern_word_nonneg k1 k2 k3 k4) as H1.
  pose proof (kern_word_nonneg k5 k6 k7 k8) as H2.
  rewrite <- byte_mask_mod.
  unfold write_kern, floordiv, pymod, kern_words_log.
  fold (kern_comment ll ch idx).
  destruct (Z.ltb_spec ch (MAX_CHANNELS tc)); [|lia].
  destruct (Z.ltb_spec idx (MASK_WIDTH tc)); [|lia].
  destruct (Z.eqb_spec (P_NUMPRO tc) 0); [lia|].
  unfold mbind, M_bind, bind, assert_, ret. cbv beta iota.
  fold (kern_addr tc ch idx).
  destruct m as [s [h o]]. fsimpl.
  destruct (write_impl s) eqn:Hw, (verify_writes s) eqn:Hv, (verify_impl s) eqn:Hvi.
  all: repeat first
         [ match goal with
           | |- context [getitem ?k ?i ?m0] =>
               erewrite (getitem_run k i _ m0) by first [lia | reflexivity]
           end; cbv beta iota
         | rewrite write_run by lia; cbv beta iota;
           unfold after_write, write_events; fsimpl; rewrite ?Hw, ?Hv; fsimpl
         | progress (unfold get_self; fsimpl; rewrite ?Hv; cbv beta iota)
         | rewrite verify_run by lia; cbv beta iota;
           unfold verify_events, logged; fsimpl; rewrite ?Hvi; fsimpl ].
  all: eexists; (split; [reflexivity|]); fsimpl.
  all: rewrite <- ?app_assoc; cbn [app]; rewrite ?app_nil_r.
  all: replace (foffs s + 2 + 2 + 2 + 1) with (foffs s + 7) by lia.
  all: replace (foffs s + 2 + 2 + 2) with (foffs s + 6) by lia.
  all: replace (foffs s + 2 + 2 + 1) with (foffs s + 5) by lia.
  all: replace (foffs s + 2 + 2) with (foffs s + 4) by lia.
  all: replace (foffs s + 2 + 1) with (foffs s + 3) by lia.
  all: reflexivity.
Qed.

(** Signed weights on the small device: [-1] goes out as [0xff]. *)
Lemma write_kern_any_kernel_witness :
  exists m',
    write_kern small_map 3 5 1 [-1; -2; 3; -128; 127; 0; 255; 256; -256; 77] m0
    = (Ok tt, m')
    /\ out (env m')
       = [FileWrite 7%nat (store_stmt 112 0xff " // Layer 3: processor 5 kernel #1");
          FileWrite 7%nat (store_stmt 116 0xfe03807f "");
          FileWrite 7%nat (store_stmt 120 0x00ff0000 "");
          FileWrite 7%nat (store_stmt 124 0 "")].
Proof.
  destruct (write_kern_any_kernel small_map 3 5 1 (-1) (-2) 3 (-128) 127 0 255 256 (-256)
              [77] m0) as (m' & Hrun & Hout); cbn; try lia.
  exists m'. split; [exact Hrun|]. rewrite Hout. reflexivity.
Defined.

(** X11: a kernel of fewer than nine elements ends [write_kern] in an
    [IndexError], but not before the words whose elements are there
    have been written: nothing for the empty kernel, otherwise at least
    the word of the first element, with its comment. *)
Theorem write_kern_short_kernel tc ll ch idx k m :
  0 <= C_GROUP_OFFS tc -> 0 <= C_MRAM_BASE tc -> 0 < P_NUMPRO tc ->
  0 <= ch < MAX_CHANNELS tc -> 0 <= idx < MASK_WIDTH tc ->
  (length k < 9)%nat ->
  exists m',
    write_kern tc ll ch idx k m = (Raise IndexError, m')
    /\ (k = [] -> m' = m)
    /\ (forall k0 rest, k = k0 :: rest ->
        exists evs,
          out (env m')
          = out (env m)
            ++ write_events (self m) (kern_addr tc ch idx) (k0 mod 256)
                 (kern_comment ll ch idx) true
            ++ evs).
Proof.
  intros Hg Hmb Hp Hch Hidx Hlen.
  pose proof (kern_addr_nonneg tc ch idx Hg Hmb Hp ltac:(lia) Hidx) as Hbase.
  unfold write_kern, floordiv, pymod.
  fold (kern_comment ll ch idx).
  destruct (Z.ltb_spec ch (MAX_CHANNELS tc)); [|lia].
  destruct (Z.ltb_spec idx (MASK_WIDTH tc)); [|lia].
  destruct (Z.eqb_spec (P_NUMPRO tc) 0); [lia|].
  unfold mbind, M_bind, bind, assert_, ret. cbv beta iota.
  fold (kern_addr tc ch idx).
  destruct k as [|k0 k].
  { rewrite getitem_short by (cbn; lia). eexists. split; [reflexivity|].
    split; [reflexivity|]. intros ? ? [=]. }
  pose proof (byte_mask_range k0) as Hk0.
  erewrite (getitem_run (k0 :: k) 0 k0) by first [lia | reflexivity]. cbv beta iota.
  rewrite write_run by lia. cbv beta iota.
  destruct k as [|k1 [|k2 [|k3 [|k4 [|k5 [|k6 [|k7 [|k8 k]]]]]]]];
    cbn [length] in Hlen; try lia.
  all: repeat first
         [ match goal with
           | |- context [getitem ?l ?i ?m0] =>
               first [ erewrite (getitem_run l i _ m0) by first [lia | reflexivity]
                     | rewrite (getitem_short l i m0) by (cbn; lia) ]
           end; cbv beta iota
         | rewrite write_run by first [lia | apply kern_word_nonneg]; cbv beta iota ].
  all: eexists; (split; [reflexivity|]); (split; [discriminate|]).
  all: intros ? ? [= <- _]; fsimpl; rewrite <- byte_mask_mod.
  all: first [ exists []; rewrite app_nil_r; reflexivity
             | eexists; rewrite <- app_assoc; reflexivity ].
Qed.

(** Three elements on the small device: the first word is out, then the
    error. *)
Lemma write_kern_short_kernel_witness :
  exists m',
    write_kern small_map 0 5 1 [1; 2; 3] m0 = (Raise IndexError, m')
    /\ out (env m')
       = [FileWrite 7%nat (store_stmt 112 1 " // Layer 0: processor 5 kernel #1")].
Proof.
  destruct (write_kern_short_kernel small_map 0 5 1 [1; 2; 3] m0)
    as (m' & Hrun & _ & _); cbn; try lia.
  exists m'. split; [exact Hrun|].
  assert (Hm : m' = snd (write_kern small_map 0 5 1 [1; 2; 3] m0))
    by (rewrite Hrun; reflexivity).
  rewrite Hm. vm_compute. reflexivity.
Defined.

(** X12: kernels do not overlap.  On a memory map whose group stride
    holds the mask words of all processors of a group, two kernels in
    bounds either are the same channel and index or have word groups
    (16 bytes each) that do not meet. *)
Theorem kernel_slots_disjoint tc ch idx ch' idx' :
  0 < P_NUMPRO tc -> P_NUMPRO tc * MASK_WIDTH tc * 16 <= C_GROUP_OFFS tc ->
  0 <= ch -> 0 <= idx < MASK_WIDTH tc ->
  0 <= ch' -> 0 <= idx' < MASK_WIDTH tc ->
  (ch = ch' /\ idx = idx')
  \/ kern_addr tc ch idx + 16 <= kern_addr tc ch' idx'
  \/ kern_addr tc ch' idx' + 16 <= kern_addr tc ch idx.
Proof.
  intros Hp Hstride Hch Hidx Hch' Hidx'. unfold kern_addr.
  pose proof (Z.div_mod ch (P_NUMPRO tc) ltac:(lia)) as Ech.
  pose proof (Z.div_mod ch' (P_NUMPRO tc) ltac:(lia)) as Ech'.
  pose proof (Z.mod_pos_bound ch (P_NUMPRO tc) Hp) as Hr.
  pose proof (Z.mod_pos_bound ch' (P_NUMPRO tc) Hp) as Hr'.
  set (q := ch / P_NUMPRO tc) in *. set (r := ch mod P_NUMPRO tc) in *.
  set (q' := ch' / P_NUMPRO tc) in *. set (r' := ch' mod P_NUMPRO tc) in *.
  set (W := MASK_WIDTH tc) in *. set (P := P_NUMPRO tc) in *.
  set (G := C_GROUP_OFFS tc) in *.
  assert (Hlin : 0 <= r * W + idx < P * W) by nia.
  assert (Hlin' : 0 <= r' * W + idx' < P * W) by nia.
  destruct (Z.lt_trichotomy q q') as [Hq|[Hq|Hq]].
  - right; left. assert (G * (q + 1) <= G * q') by nia. nia.
  - destruct (Z.lt_trichotomy r r') as [Hlt|[Heq|Hlt]].
    + right; left. assert (r * W + W <= r' * W) by nia. nia.
    + destruct (Z.lt_trichotomy idx idx') as [Hi|[Hi|Hi]].
      * right; left. subst q' r'. rewrite Hq, Heq. lia.
      * left. split; [|exact Hi]. lia.
      * right; right. subst q' r'. rewrite Hq, Heq. lia.
    + right; right. assert (r' * W + W <= r * W) by nia. nia.
  - right; right. assert (G * (q' + 1) <= G * q) by nia. nia.
Qed.

Lemma kernel_slots_disjoint_witness :
  kern_addr wide_map 3 1 + 16 <= kern_addr wide_map 4 0.
Proof.
  destruct (kernel_slots_disjoint wide_map 3 1 4 0) as [[H _]|[H|H]];
    cbn; try lia; try exact H. vm_compute in H. exfalso. apply H. reflexivity.
Defined.

(** ** Layer registers and biases *)



(** X16: [write_bias] stores the low eight bits of the bias: when its
    address is not negative the call returns for every bias, negative
    ones included, and the word written is the bias modulo 256. *)
Theorem write_bias_low_byte tc group offs bias m :
  0 <= bias_addr tc group offs ->
  exists m',
    write_bias tc group offs bias m = (Ok tt, m')
    /\ out (env m')
       = out (env m)
         ++ write_events (self m) (bias_addr tc group offs) (bias mod 256) " // Bias" false
    /\ write_bias tc group offs (bias mod 256) m = (Ok tt, m').
Proof.
  intros Ha. pose proof (byte_mask_range bias) as Hb.
  unfold write_bias. fold (bias_addr tc group offs).
  replace (Z.land (bias mod 256) 255) with (Z.land bias 255)
    by (rewrite !byte_mask_mod, Z.mod_mod by lia; reflexivity).
  rewrite write_run by lia. rewrite <- byte_mask_mod.
  eexists. split; [reflexivity|]. split; reflexivity.
Qed.

Lemma write_bias_low_byte_witness :
  exists m',
    write_bias small_map 1 2 (-3) m0 = (Ok tt, m')
    /\ out (env m') = [FileWrite 7%nat (store_stmt 120 0xfd " // Bias")].
Proof.
  destruct (write_bias_low_byte small_map 1 2 (-3) m0) as (m' & Hrun & Hout & _);
    [unfold bias_addr; cbn; lia|].
  exists m'. split; [exact Hrun|]. rewrite Hout. reflexivity.
Defined.

(** ** The backend does not steer the engine *)

Lemma alike_ret {A} (RA : A -> A -> Prop) a1 a2 : RA a1 a2 -> alike RA (ret a1) (ret a2).
Proof. intros Ha m1 m2 Ht. split; [exact Ht|exact Ha]. Qed.

Lemma alike_raise {A} (RA : A -> A -> Prop) e : alike RA (raise e) (raise e).
Proof. intros m1 m2 Ht. split; [exact Ht|reflexivity]. Qed.

Lemma alike_bind {A B} (RA : A -> A -> Prop) (RB : B -> B -> Prop)
    (c1 c2 : M A) (k1 k2 : A -> M B) :
  alike RA c1 c2 -> (forall a1 a2, RA a1 a2 -> alike RB (k1 a1) (k2 a2)) ->
  alike RB (c1 ≫= k1) (c2 ≫= k2).
Proof.
  intros Hc Hk m1 m2 Ht. unfold mbind, M_bind, bind.
  destruct (Hc m1 m2 Ht) as [Ht' Hr].
  destruct (c1 m1) as [[a1|e1] m1'], (c2 m2) as [[a2|e2] m2']; cbn [fst snd] in *;
    try contradiction.
  - apply Hk; assumption.
  - split; assumption.
Qed.

Lemma alike_get_self : alike agree get_self get_self.
Proof. intros m1 m2 Ht. split; [exact Ht|apply Ht]. Qed.

Lemma alike_emit e1 e2 : alike eq (emit e1) (emit e2).
Proof. intros m1 m2 Ht. split; [exact Ht|reflexivity]. Qed.

Lemma alike_modify f1 f2 :
  (forall s1 s2, agree s1 s2 -> agree (f1 s1) (f2 s2)) ->
  alike eq (modify_self f1) (modify_self f2).
Proof.
  intros Hf m1 m2 [Ha Hh]. split; [|reflexivity]. split; [|exact Hh].
  cbn. apply Hf. exact Ha.
Qed.

Lemma alike_mem_getitem i : alike eq (mem_getitem i) (mem_getitem i).
Proof.
  intros m1 m2 [Ha Hh]. unfold mem_getitem.
  destruct Ha as (Hd & Hn & Ho & Hv & He & Hm). rewrite Hh, Hm.
  destruct (list_getitem _ i); cbn [fst snd];
    (split; [unfold twin, agree; auto 10|reflexivity]).
Qed.

Lemma alike_mem_setitem i v : alike eq (mem_setitem i v) (mem_setitem i v).
Proof.
  intros m1 m2 [Ha Hh]. unfold mem_setitem.
  destruct Ha as (Hd & Hn & Ho & Hv & He & Hm). rewrite Hh, Hm.
  destruct (list_setitem _ i v); cbn [fst snd];
    (split; [unfold twin, agree; fsimpl; auto 10|reflexivity]).
Qed.

Lemma alike_same {A} (c : M A) :
  (forall m, snd (c m) = m) -> (forall m1 m2, fst (c m1) = fst (c m2)) ->
  alike eq c c.
Proof.
  intros Hs Hf m1 m2 Ht. rewrite !Hs. split; [exact Ht|].
  rewrite (Hf m1 m2). destruct (fst (c m2)); reflexivity.
Qed.

Lemma alike_assert b : alike eq (assert_ b) (assert_ b).
Proof. apply alike_same; intros; destruct b; reflexivity. Qed.

Lemma alike_getitem k i : alike eq (getitem k i) (getitem k i).
Proof.
  apply alike_same; intros; unfold getitem; destruct (list_getitem k i); reflexivity.
Qed.

Lemma alike_floordiv a b : alike eq (floordiv a b) (floordiv a b).
Proof. apply alike_same; intros; unfold floordiv; destruct (b =? 0); reflexivity. Qed.

Lemma alike_pymod a b : alike eq (pymod a b) (pymod a b).
Proof. apply alike_same; intros; unfold pymod; destruct (b =? 0); reflexivity. Qed.

Lemma alike_lshift a n : alike eq (lshift a n) (lshift a n).
Proof. apply alike_same; intros; unfold lshift; destruct (n <? 0); reflexivity. Qed.

Lemma twin_after_write m1 m2 evs1 evs2 :
  twin m1 m2 ->
  twin (mkMachine (after_write (self m1)) (mkWorld (heap (env m1)) evs1))
       (mkMachine (after_write (self m2)) (mkWorld (heap (env m2)) evs2)).
Proof.
  intros [Ha Hh]. split; [|exact Hh]. unfold after_write. fsimpl.
  destruct (write_impl (self m1)), (write_impl (self m2)); exact Ha.
Qed.

(** Whatever backend either object is bound to. *)
Lemma alike_write a v c nv c' nv' : alike eq (write a v c nv) (write a v c' nv').
Proof.
  intros m1 m2 Ht.
  destruct (Z.leb_spec 0 a) as [Ha|Ha]; destruct (Z.leb_spec 0 v) as [Hv|Hv];
    try (rewrite !write_raise by lia; split; [exact Ht|reflexivity]).
  rewrite !write_run by assumption. cbn [fst snd].
  split; [apply twin_after_write; exact Ht|reflexivity].
Qed.

Lemma verify_state a v c rv m :
  fst (verify a v c rv m) = (if (0 <=? v) && (0 <=? a) then Ok tt else Raise AssertionError)
  /\ same_engine m (snd (verify a v c rv m)).
Proof.
  split.
  - unfold verify, verify_block, verify_top. mred.
    destruct (verify_impl (self m)), (0 <=? v), (0 <=? a), rv; reflexivity.
  - eapply verify_untracked. apply surjective_pairing.
Qed.

Lemma alike_verify a v c rv c' rv' : alike eq (verify a v c rv) (verify a v c' rv').
Proof.
  intros m1 m2 [Ha Hh].
  destruct (verify_state a v c rv m1) as [Hf1 (Hh1 & Hm1 & Hd1 & Hn1 & Ho1 & _ & Hv1 & He1 & _)].
  destruct (verify_state a v c' rv' m2) as [Hf2 (Hh2 & Hm2 & Hd2 & Hn2 & Ho2 & _ & Hv2 & He2 & _)].
  destruct Ha as (Hd & Hn & Ho & Hv & He & Hm).
  split.
  - split; [|congruence]. unfold agree. repeat split; congruence.
  - rewrite Hf1, Hf2. destruct ((0 <=? v) && (0 <=? a)); reflexivity.
Qed.

Lemma alike_memfile_write t1 t2 : alike eq (memfile_write t1) (memfile_write t2).
Proof.
  unfold memfile_write. eapply alike_bind; [apply alike_get_self|].
  intros s1 s2 _. apply alike_emit.
Qed.

Lemma alike_print t1 t2 : alike eq (print t1) (print t2).
Proof. apply alike_emit. Qed.

Lemma alike_ret_tt : alike eq (ret tt) (ret tt).
Proof. apply alike_ret. reflexivity. Qed.

Create HintDb alike.

#[local] Hint Resolve alike_ret_tt alike_raise alike_assert alike_getitem alike_floordiv
  alike_pymod alike_lshift alike_memfile_write alike_print alike_mem_getitem
  alike_mem_setitem alike_write alike_verify : alike.

Ltac agree_fields :=
  repeat match goal with
         | H : agree ?a ?b |- _ =>
             let Hd := fresh in let Hn := fresh in let Ho := fresh in
             let Hv := fresh in let He := fresh in let Hm := fresh in
             destruct H as (Hd & Hn & Ho & Hv & He & Hm);
             rewrite ?Hd, ?Hn, ?Ho, ?Hv, ?He, ?Hm
         end.

Ltac alike_steps :=
  repeat first
    [ solve [auto with alike]
    | simple apply alike_modify;
      unfold agree; intros ? ? (? & ? & ? & ? & ? & ?); fsimpl;
      repeat split; congruence
    | simple eapply alike_bind;
      [ simple apply alike_get_self | intros ? ? ?; agree_fields ]
    | simple eapply alike_bind; [ solve [auto with alike] | intros ? ? <- ]
    | match goal with
      | H : ?x = ?y |- _ => is_var x; is_var y; subst y
      | |- alike _ (if ?b then _ else _) (if ?b then _ else _) => destruct b
      | |- alike _ (match ?x with _ => _ end) (match ?x with _ => _ end) => destruct x
      end
    | simple eapply alike_bind; [ | intros ? ? ? ] ].

Lemma alike_write_block a v c nv : alike eq (write_block a v c nv) (write_block a v c nv).
Proof. unfold write_block. alike_steps. Qed.

Lemma alike_write_top a v c nv : alike eq (write_top a v c nv) (write_top a v c nv).
Proof. unfold write_top. alike_steps. Qed.

Lemma alike_verify_block a v c rv : alike eq (verify_block a v c rv) (verify_block a v c rv).
Proof. unfold verify_block. alike_steps. Qed.

Lemma alike_verify_top a v c rv : alike eq (verify_top a v c rv) (verify_top a v c rv).
Proof. unfold verify_top. alike_steps. Qed.

Lemma alike_flush offs c : alike eq (write_byte_flush offs c) (write_byte_flush offs c).
Proof. unfold write_byte_flush, sys_exit. alike_steps. Qed.

#[local] Hint Resolve alike_flush : alike.

Lemma alike_write_byte offs val c : alike eq (write_byte offs val c) (write_byte offs val c).
Proof. unfold write_byte. alike_steps. Qed.

Lemma alike_call tc c : alike eq (invoke tc c) (invoke tc c).
Proof.
  destruct c; cbn [invoke].
  - apply alike_write_block.
  - apply alike_write_top.
  - apply alike_verify_block.
  - apply alike_verify_top.
  - apply alike_write.
  - apply alike_verify.
  - unfold set_memfile. alike_steps.
  - unfold write_ctl. alike_steps.
  - unfold write_lreg. alike_steps.
  - unfold write_bias. alike_steps.
  - unfold write_tram. alike_steps.
  - unfold write_kern. alike_steps.
  - apply alike_flush.
  - apply alike_write_byte.
  - unfold get_mem. alike_steps.
Qed.

Lemma alike_script tc cs : alike eq (invoke_all tc cs) (invoke_all tc cs).
Proof.
  induction cs as [|c cs IH]; cbn [invoke_all].
  - apply alike_ret_tt.
  - eapply alike_bind; [apply alike_call|intros _ _ _; exact IH].
Qed.

(** X17: the output side does not steer the engine.  Two objects made
    in the same world with the same two policy flags, but with any sink,
    base address and backend each, go through any calls alike: the same
    calls return, the first call that raises is the same and raises the
    same exception, and they end with the same accumulator, the same
    expected offset and the same bitmap. *)
Theorem backend_does_not_steer tc f1 f2 base1 base2 bm1 bm2 vw nes w cs :
  let m1 := invoke_all tc cs (__init__ tc f1 base1 bm1 vw nes w) in
  let m2 := invoke_all tc cs (__init__ tc f2 base2 bm2 vw nes w) in
  fst m1 = fst m2
  /\ bitmap (snd m1) = bitmap (snd m2)
  /\ data (self (snd m1)) = data (self (snd m2))
  /\ num (self (snd m1)) = num (self (snd m2))
  /\ data_offs (self (snd m1)) = data_offs (self (snd m2)).
Proof.
  cbn zeta.
  assert (Ht : twin (__init__ tc f1 base1 bm1 vw nes w) (__init__ tc f2 base2 bm2 vw nes w)).
  { unfold twin, agree, __init__. fsimpl. auto 10. }
  destruct (alike_script tc cs _ _ Ht) as [[(Hd & Hn & Ho & _ & _ & Hm) Hh] Hr].
  split.
  - destruct (fst (invoke_all tc cs (__init__ tc f1 base1 bm1 vw nes w))) as [[]|e1],
      (fst (invoke_all tc cs (__init__ tc f2 base2 bm2 vw nes w))) as [[]|e2];
      try contradiction; congruence.
  - unfold bitmap. rewrite Hh, Hm. auto.
Qed.

(** ** The reach of the bitmap *)

(** X18: the bitmap bounds what the byte collector can flush.  With
    bytes pending for an address whose slot is at or beyond the length
    of the bitmap, or further below zero than the bitmap is long, the
    flush ends in an [IndexError] and the machine is as it was; for an
    address that is not negative with its slot inside, it never does. *)
Theorem flush_bounds offs c m :
  0 < num (self m) ->
  let slot := slot_of (pending_addr (self m)) in
  let len := Z.of_nat (length (bitmap m)) in
  (len <= slot \/ slot < - len -> write_byte_flush offs c m = (Raise IndexError, m))
  /\ (0 <= pending_addr (self m) -> slot < len ->
      fst (write_byte_flush offs c m) <> Raise IndexError).
Proof.
  intros Hn slot len. split.
  - intros Hout. apply flush_index_error; [exact Hn|].
    fold slot len. unfold py_index.
    destruct (Z.leb_spec 0 slot), (Z.ltb_spec slot len), (Z.leb_spec (- len) slot),
      (Z.ltb_spec slot 0); cbn [andb]; try reflexivity; lia.
  - intros Hw Hin.
    pose proof (slot_index (bitmap m) _ Hw Hin) as Hi.
    destruct (flush_conditions m)
      as [Hnone|[(n & Hi' & Hs & Hnes)|[(seen & n & Hi' & Hs & Hgo & Hneg)
                                       |(seen & n & Hi' & Hs & Hgo & Ha & Hd)]]].
    + congruence.
    + rewrite (flush_stop offs c m n Hn Hi' Hs Hnes). discriminate.
    + rewrite (flush_assert offs c m seen n Hn Hi' Hs Hgo Hneg). discriminate.
    + rewrite (flush_run offs c m seen n Hn Hi' Hs Hgo Ha Hd). discriminate.
Qed.

(** The small device has 128 slots: a byte at offset 512 cannot be
    flushed. *)
Lemma flush_bounds_witness :
  let m := snd (write_byte 512 1 "" m0) in
  write_byte_flush 0 "" m = (Raise IndexError, m).
Proof.
  cbn zeta.
  apply (flush_bounds 0 "" (snd (write_byte 512 1 "" m0))).
  - vm_compute. reflexivity.
  - left. vm_compute. discriminate.
Defined.
